(** * Volunteer Scheduler: cohort rotation and shift assignment

    A shallow embedding of [app.py].  The script is a straight-line Streamlit
    page; its logic is the function [generate_schedule], the constant
    [schedule_pattern], the table-building loop and the search loop.  Each of
    them is transcribed below under the names of the source.

    Conventions of the embedding:
    - a Python [str] is a Rocq [string] holding its UTF-8 bytes;
    - a volunteer dict [{"id_str": .., "id_num": ..}] is the record
      [volunteer];
    - [total_ppl], list indices and [req_per_counter] are natural numbers;
      [rot_idx] is an integer, since a Python slice accepts a bound of any
      sign;
    - [math.ceil(total_ppl / 4)] is computed on integers; the float division
      of the source is exact for every roster below 2^53 volunteers;
    - an insertion-ordered dict with string keys and values is an association
      list ([dict_set] replaces in place or appends, as Python does); the
      dict literal of [generate_schedule], only ever read by key, is a
      [gmap];
    - an operation that can raise ([KeyError], [IndexError]) returns an
      [option];
    - the search is modelled from the number that the digits of the query
      spell, [int(q_num)], onwards. *)

From Stdlib Require Import Ascii DecimalString DecimalNat.
From stdpp Require Import gmap strings list fin_maps sorting.

(** ** Python built-ins used by the script *)

Module Py.

(** [l[a:b]] for non-negative bounds. *)
Definition slice {A} (l : list A) (a b : nat) : list A :=
  take (b - a) (drop a l).

(** A slice bound of any sign, normalised against the length as CPython's
    [PySlice_AdjustIndices] does: a negative bound counts from the end, and
    the result is clamped to [0, len]. *)
Definition adjust_index (len : nat) (i : Z) : nat :=
  if (i <? 0)%Z then Z.to_nat (Z.max 0 (Z.of_nat len + i))
  else Z.to_nat (Z.min i (Z.of_nat len)).

(** [l[i:]] *)
Definition slice_from {A} (l : list A) (i : Z) : list A :=
  drop (adjust_index (length l) i) l.

(** [l[:i]] *)
Definition slice_to {A} (l : list A) (i : Z) : list A :=
  take (adjust_index (length l) i) l.

(** [str(n)] for a non-negative integer. *)
Definition str_of_nat (n : nat) : string :=
  NilEmpty.string_of_uint (Nat.to_uint n).

(** [sep.join(parts)] *)
Definition join (sep : string) (parts : list string) : string :=
  String.concat sep parts.

(** [s.split(sep)] for a non-empty [sep]: the text is scanned from the left;
    where [sep] starts, the piece read so far is closed and [sep] is skipped.
    [skip] counts the characters of a matched [sep] still to pass over. *)
Fixpoint split_go (sep : string) (skip : nat) (cur s : string) : list string :=
  match s with
  | EmptyString => [cur]
  | String ch s' =>
      match skip with
      | S k => split_go sep k cur s'
      | 0 =>
          if String.prefix sep s
          then cur :: split_go sep (String.length sep - 1) EmptyString s'
          else split_go sep 0 (cur +:+ String ch EmptyString) s'
      end
  end.

Definition split (s sep : string) : list string :=
  split_go sep 0 EmptyString s.

(** [math.ceil(n / d)] on non-negative integers. *)
Definition ceil_div (n d : nat) : nat := (n + (d - 1)) / d.

(** [l.sort(key=key)]: the stable sort by an integer key.  Read from the
    right, every element is put in front of the first element of the sorted
    rest whose key is not smaller, so equal keys keep their order. *)
Fixpoint insert_by_key {A} (key : A → nat) (x : A) (l : list A) : list A :=
  match l with
  | [] => [x]
  | y :: l' =>
      if decide (key x ≤ key y) then x :: y :: l'
      else y :: insert_by_key key x l'
  end.

Fixpoint sort_by_key {A} (key : A → nat) (l : list A) : list A :=
  match l with
  | [] => []
  | x :: l' => insert_by_key key x (sort_by_key key l')
  end.

(** An insertion-ordered [dict] with string keys and values. *)
Abbreviation dict := (list (string * string)).

(** [d[k] = v] *)
Fixpoint dict_set (d : dict) (k v : string) : dict :=
  match d with
  | [] => [(k, v)]
  | (k', v') :: d' =>
      if decide (k' = k) then (k', v) :: d' else (k', v') :: dict_set d' k v
  end.

(** [d[k]] *)
Fixpoint dict_get (d : dict) (k : string) : option string :=
  match d with
  | [] => None
  | (k', v') :: d' => if decide (k' = k) then Some v' else dict_get d' k
  end.

Definition dict_keys (d : dict) : list string := d.*1.

(** [d.update(other)] *)
Definition dict_update (d other : dict) : dict :=
  foldl (λ acc kv, dict_set acc kv.1 kv.2) d other.

End Py.

(** ** The roster date *)

(** [datetime.date]: a day of the proleptic Gregorian calendar. *)
Record date := Date { year : nat; month : nat; day : nat }.

Definition is_leap (y : nat) : bool :=
  (y mod 4 =? 0) && (negb (y mod 100 =? 0) || (y mod 400 =? 0)).

Definition days_in_month (y m : nat) : nat :=
  match m with
  | 2 => if is_leap y then 29 else 28
  | 4 | 6 | 9 | 11 => 30
  | _ => 31
  end.

(** Days of year [y] that precede the first day of month [m]. *)
Definition days_before_month (y m : nat) : nat :=
  sum_list (days_in_month y <$> seq 1 (m - 1)).

(** [d.timetuple().tm_yday] *)
Definition tm_yday (d : date) : nat :=
  days_before_month (year d) (month d) + day d.

(** [rotation_index = day_of_year % 4] *)
Definition rotation_index (selected_date : date) : nat :=
  let day_of_year := tm_yday selected_date in
  day_of_year mod 4.

Definition valid_date (d : date) : Prop :=
  1 ≤ year d ∧ 1 ≤ month d ≤ 12 ∧ 1 ≤ day d ≤ days_in_month (year d) (month d).

(** The calendar day after [d]; the script never computes it, the rotation
    claims speak of it. *)
Definition next_day (d : date) : date :=
  if decide (day d < days_in_month (year d) (month d))
  then {| year := year d; month := month d; day := S (day d) |}
  else if decide (month d < 12)
  then {| year := year d; month := S (month d); day := 1 |}
  else {| year := S (year d); month := 1; day := 1 |}.

Definition add_days (n : nat) (d : date) : date := Nat.iter n next_day d.

(** ** [generate_schedule] *)

Record volunteer := Volunteer { id_str : string; id_num : nat }.

Abbreviation cohort := (list volunteer).

(** [{"id_str": f"V-{i}", "id_num": i}] *)
Definition mk_volunteer (i : nat) : volunteer :=
  {| id_str := "V-" +:+ Py.str_of_nat i; id_num := i |}.

(** [[... for i in range(1, total_ppl + 1)]] *)
Definition master_list (total_ppl : nat) : list volunteer :=
  mk_volunteer <$> seq 1 total_ppl.

Definition chunk (total_ppl : nat) : nat := Py.ceil_div total_ppl 4.

(** The local [groups]: Group A, B, C, D. *)
Definition groups (total_ppl : nat) : list cohort :=
  let master_list := master_list total_ppl in
  let chunk := chunk total_ppl in
  [ Py.slice master_list 0 chunk;
    Py.slice master_list chunk (chunk * 2);
    Py.slice master_list (chunk * 2) (chunk * 3);
    drop (chunk * 3) master_list ].

(** [groups[rot_idx:] + groups[:rot_idx]] *)
Definition rotated_groups {A} (groups : list A) (rot_idx : Z) : list A :=
  Py.slice_from groups rot_idx ++ Py.slice_to groups rot_idx.

(** The dict literal [{'1': rotated_groups[0], ..., '4': rotated_groups[3]}]. *)
Definition cohort_map {A} (rotated_groups : list A) : option (gmap string A) :=
  g0 ← rotated_groups !! 0;
  g1 ← rotated_groups !! 1;
  g2 ← rotated_groups !! 2;
  g3 ← rotated_groups !! 3;
  Some (<["4" := g3]> (<["3" := g2]> (<["2" := g1]> (<["1" := g0]> ∅)))).

Definition generate_schedule (total_ppl : nat) (rot_idx : Z)
  : option (gmap string cohort) :=
  cohort_map (rotated_groups (groups total_ppl) rot_idx).

(** ** The schedule definition *)

(** (time slot, active group keys, people needed per counter) *)
Definition schedule_pattern : list (string * list string * nat) :=
  [ ("08:00 - 10:00 (Peak)", ["1"; "2"], 4);
    ("10:00 - 12:00 (Peak)", ["3"; "4"], 4);
    ("12:00 - 14:00 (Peak)", ["1"; "2"], 4);
    ("14:00 - 16:00 (Peak)", ["3"; "4"], 4);
    ("16:00 - 18:00 (Off)",  ["1"],      2);
    ("18:00 - 20:00 (Off)",  ["2"],      2);
    ("20:00 - 22:00 (Off)",  ["3"],      2);
    ("22:00 - 00:00 (Off)",  ["4"],      2);
    ("00:00 - 02:00 (Off)",  ["1"],      2);
    ("02:00 - 04:00 (Off)",  ["2"],      2);
    ("04:00 - 06:00 (Off)",  ["3"],      2);
    ("06:00 - 08:00 (Off)",  ["4"],      2) ].

Definition counters : nat := 30.

(** ** Building the table *)

(** One entry of [reserves_log]: [{"Time": .., "Reserves": ..}]. *)
Record reserve_entry := ReserveEntry { res_time : string; res_names : string }.

(** [for key in active_group_keys: pool.extend(cohort_data[key])] *)
Fixpoint extend_pool (cohort_data : gmap string cohort) (pool : cohort)
    (active_group_keys : list string) : option cohort :=
  match active_group_keys with
  | [] => Some pool
  | key :: keys =>
      g ← cohort_data !! key;
      extend_pool cohort_data (pool ++ g) keys
  end.

(** Steps 1 and 2 of a time slot: merge, then sort by [id_num]. *)
Definition shift_pool (cohort_data : gmap string cohort)
    (active_group_keys : list string) : option cohort :=
  pool ← extend_pool cohort_data [] active_group_keys;
  Some (Py.sort_by_key id_num pool).

(** [pool[current_idx : current_idx + req_per_counter]] *)
Definition assigned_ppl (pool : cohort) (current_idx req_per_counter : nat)
  : cohort :=
  Py.slice pool current_idx (current_idx + req_per_counter).

Definition EMPTY : string := "⚠️ EMPTY".

(** [", ".join([p['id_str'] for p in ppl])] *)
Definition join_names (ppl : cohort) : string :=
  Py.join ", " (id_str <$> ppl).

(** The cell text of one counter: the joined names, or the marker when the
    slice is empty. *)
Definition names_str (assigned_ppl : cohort) : string :=
  match assigned_ppl with
  | [] => EMPTY
  | _ => join_names assigned_ppl
  end.

(** [assignments[i][time_slot] = names_str] *)
Definition set_cell (assignments : list Py.dict) (i : nat)
    (time_slot names_str : string) : option (list Py.dict) :=
  row ← assignments !! i;
  Some (<[i := Py.dict_set row time_slot names_str]> assignments).

(** Step 3 of a time slot, [for i in range(counters)], over the counters that
    remain to be served; the result carries the final [current_idx]. *)
Fixpoint distribute (pool : cohort) (req_per_counter : nat) (time_slot : string)
    (range : list nat) (assignments : list Py.dict) (current_idx : nat)
  : option (list Py.dict * nat) :=
  match range with
  | [] => Some (assignments, current_idx)
  | i :: range' =>
      let assigned := assigned_ppl pool current_idx req_per_counter in
      assignments' ← set_cell assignments i time_slot (names_str assigned);
      distribute pool req_per_counter time_slot range' assignments'
        (current_idx + req_per_counter)
  end.

(** Step 4 of a time slot: the reserves, logged only when there are some. *)
Definition catch_reserves (pool : cohort) (current_idx : nat)
    (time_slot : string) (reserves_log : list reserve_entry)
  : list reserve_entry :=
  let leftovers := drop current_idx pool in
  match leftovers with
  | [] => reserves_log
  | _ =>
      let reserves_names := join_names leftovers in
      reserves_log
        ++ [{| res_time := time_slot; res_names := reserves_names |}]
  end.

(** The body of [for time_slot, active_group_keys, req_per_counter in
    schedule_pattern]. *)
Definition slot_step (cohort_data : gmap string cohort)
    (st : list Py.dict * list reserve_entry)
    (entry : string * list string * nat)
  : option (list Py.dict * list reserve_entry) :=
  let '(assignments, reserves_log) := st in
  let '(time_slot, active_group_keys, req_per_counter) := entry in
  pool ← shift_pool cohort_data active_group_keys;
  '(assignments', current_idx) ←
    distribute pool req_per_counter time_slot (seq 0 counters) assignments 0;
  Some (assignments', catch_reserves pool current_idx time_slot reserves_log).

Fixpoint run_pattern (cohort_data : gmap string cohort)
    (pattern : list (string * list string * nat))
    (st : list Py.dict * list reserve_entry)
  : option (list Py.dict * list reserve_entry) :=
  match pattern with
  | [] => Some st
  | entry :: pattern' =>
      st' ← slot_step cohort_data st entry;
      run_pattern cohort_data pattern' st'
  end.

(** [row = {"Counter": f"Counter {i+1}"}; row.update(assignments[i])] *)
Definition final_row (i : nat) (cells : Py.dict) : Py.dict :=
  Py.dict_update [("Counter", "Counter " +:+ Py.str_of_nat (i + 1))] cells.

(** [for i in range(counters): ...; final_table_data.append(row)] *)
Definition final_table_data (assignments : list Py.dict)
  : option (list Py.dict) :=
  mapM (λ i, cells ← assignments !! i; Some (final_row i cells))
    (seq 0 counters).

(** The script from the two sidebar inputs down to [final_table_data] and
    [reserves_log]. *)
Definition build_schedule (total_volunteers : nat) (rotation_index : Z)
  : option (list Py.dict * list reserve_entry) :=
  cohort_data ← generate_schedule total_volunteers rotation_index;
  '(assignments, reserves_log) ←
    run_pattern cohort_data schedule_pattern (replicate counters [], []);
  table ← final_table_data assignments;
  Some (table, reserves_log).

(** ** The data frame and the search *)

(** [pd.DataFrame(records)]: the columns are the keys of the records in order
    of first appearance; a record lacking a column reads as NaN there. *)
Record DataFrame := { df_columns : list string; df_rows : list Py.dict }.

Definition first_seen (acc : list string) (k : string) : list string :=
  if decide (k ∈ acc) then acc else acc ++ [k].

Definition pd_DataFrame (records : list Py.dict) : DataFrame :=
  {| df_columns := foldl first_seen [] (records ≫= Py.dict_keys);
     df_rows := records |}.

(** [str(row[col])] *)
Definition str_cell (row : Py.dict) (col : string) : string :=
  default "nan" (Py.dict_get row col).

(** One entry of [found]: [{"Time": .., "Location": .., "Role": ..}]. *)
Record duty := Duty { Time : string; Location : string; Role : string }.

(** [target = f"V-{int(q_num)}"], from the number that the digits of the
    query spell. *)
Definition target_of (q_num : nat) : string := "V-" +:+ Py.str_of_nat q_num.

(** The inner test of both search loops. *)
Definition matches (target cell : string) : bool :=
  bool_decide (target ∈ Py.split cell ", ").

(** [for idx, row in df.iterrows(): for col in df.columns: ...] *)
Definition search_table (df : DataFrame) (target : string) : list duty :=
  row ← df_rows df;
  col ← df_columns df;
  if decide (col = "Counter") then []
  else if matches target (str_cell row col)
  then [{| Time := col; Location := str_cell row "Counter";
           Role := "Counter Duty" |}]
  else [].

(** [for item in reserves_log: ...] *)
Definition search_reserves (reserves_log : list reserve_entry)
    (target : string) : list duty :=
  item ← reserves_log;
  if matches target (res_names item)
  then [{| Time := res_time item; Location := "Reserve Area";
           Role := "Standby" |}]
  else [].

Definition found (df : DataFrame) (reserves_log : list reserve_entry)
    (target : string) : list duty :=
  search_table df target ++ search_reserves reserves_log target.

(** ** Vocabulary of the statements *)

(** The slot key that the dict literal gives to [rotated_groups[i]]. *)
Definition slot_key (i : nat) : string := Py.str_of_nat (S i).

(** [m] maps key [i+1] to [original[(i + k) mod 4]], for the four keys. *)
Definition rotates_by {A} (original : list A) (k : nat) (m : gmap string A)
  : Prop :=
  ∀ i : nat, i < 4 → m !! slot_key i = original !! ((i + k) mod 4).

(** The index shift that [rotated_groups] really applies for a given
    [rot_idx]: [rot_idx mod 4] when [-4 <= rot_idx <= 4], none otherwise
    (both slices are clamped, and the sequence comes back unrotated). *)
Definition effective_shift (r : Z) : nat :=
  if decide (-4 ≤ r ≤ 4)%Z then Z.to_nat (r mod 4) else 0.

(** What the thirty counters get from a pool, in counter order. *)
Definition counter_slices (pool : cohort) (req_per_counter : nat)
  : list cohort :=
  (λ i, assigned_ppl pool (i * req_per_counter) req_per_counter)
    <$> seq 0 counters.

(** The cell that iteration [i] of the counter loop writes. *)
Definition write_cell (pool : cohort) (req : nat) (ts : string) (i : nat)
    (row : Py.dict) : Py.dict :=
  Py.dict_set row ts (names_str (assigned_ppl pool (i * req) req)).

(** The cells of counter [i], one per time slot, given the pool of each
    slot. *)
Definition slot_cells (pattern : list (string * list string * nat))
    (pools : list cohort) (i : nat) : Py.dict :=
  zip_with
    (λ entry pool,
       (entry.1.1, names_str (assigned_ppl pool (i * entry.2) entry.2)))
    pattern pools.

(** The reserve entries of the day, given the pool of each slot. *)
Definition slot_reserves (pattern : list (string * list string * nat))
    (pools : list cohort) : list reserve_entry :=
  concat
    (zip_with
       (λ entry pool, catch_reserves pool (counters * entry.2) entry.1.1 [])
       pattern pools).

(** [pools] are the Shift Pools of the entries of [pattern], in order. *)
Definition pools_of (cohort_data : gmap string cohort)
    (pattern : list (string * list string * nat)) (pools : list cohort)
  : Prop :=
  Forall2 (λ entry pool, shift_pool cohort_data entry.1.2 = Some pool)
    pattern pools.

(** The pools of the twelve entries of [schedule_pattern] when the keys
    '1'..'4' hold the cohorts [a], [b], [c], [d]. *)
Definition pattern_pools (a b c d : cohort) : list cohort :=
  let sorted := Py.sort_by_key id_num in
  [ sorted (a ++ b); sorted (c ++ d); sorted (a ++ b); sorted (c ++ d);
    sorted a; sorted b; sorted c; sorted d;
    sorted a; sorted b; sorted c; sorted d ].

(** The assembled table, given the pool of each slot. *)
Definition expected_table (pools : list cohort) : list Py.dict :=
  (λ i, ("Counter", "Counter " +:+ Py.str_of_nat (i + 1))
          :: slot_cells schedule_pattern pools i) <$> seq 0 counters.

(** The text of the table at counter [i] and column [col]. *)
Definition table_cell (table : list Py.dict) (i : nat) (col : string)
  : option string :=
  row ← table !! i; Py.dict_get row col.

(** The reserve entry that a slot logs when its leftovers are [leftovers]. *)
Definition reserve_of (time_slot : string) (leftovers : cohort)
  : reserve_entry :=
  {| res_time := time_slot; res_names := join_names leftovers |}.

(** The number written by the two characters of [label] at [pos]. *)
Definition two_digits (label : string) (pos : nat) : option nat :=
  Nat.of_uint <$> NilEmpty.uint_of_string (String.substring pos 2 label).

(** A label reads "HH:MM - HH:MM (Regime)": start, end and regime. *)
Definition slot_start (label : string) : option (nat * nat) :=
  h ← two_digits label 0; m ← two_digits label 3; Some (h, m).

Definition slot_end (label : string) : option (nat * nat) :=
  h ← two_digits label 8; m ← two_digits label 11; Some (h, m).

Definition regime (label : string) : string :=
  String.substring 14 (String.length label - 14) label.

(** The slot of [label] covers the hour that starts at [h] o'clock. *)
Definition covers_hour (label : string) (h : nat) : bool :=
  match slot_start label, slot_end label with
  | Some (s, 0), Some (e, 0) =>
      bool_decide ((h + 24 - s) mod 24 < (e + 24 - s) mod 24)
  | _, _ => false
  end.

(** The text holds no comma. *)
Fixpoint no_comma (s : string) : Prop :=
  match s with
  | EmptyString => True
  | String ch s' => ch ≠ ","%char ∧ no_comma s'
  end.

(** A volunteer record as [generate_schedule] makes them. *)
Definition is_volunteer (v : volunteer) : Prop := v = mk_volunteer (id_num v).

Definition four_keys : list string := ["1"; "2"; "3"; "4"].

(** The position in [rotated_groups] that a slot key reads. *)
Definition key_index (key : string) : nat :=
  if decide (key = "1") then 0
  else if decide (key = "2") then 1
  else if decide (key = "3") then 2
  else 3.

(** * Proofs *)

(** ** Cohort Builder *)

Section CohortBuilder.

Lemma ceil_div_4_spec (n : nat) :
  n ≤ 4 * Py.ceil_div n 4 ∧ 4 * Py.ceil_div n 4 < n + 4.
Proof.
  unfold Py.ceil_div. change (4 - 1) with 3.
  pose proof (Nat.div_mod_eq (n + 3) 4).
  pose proof (Nat.mod_upper_bound (n + 3) 4). lia.
Qed.

(** A slice followed by the rest of the list is the list from the slice's
    start on. *)
Lemma slice_app_drop {A} (l : list A) (a b : nat) :
  a ≤ b → Py.slice l a b ++ drop b l = drop a l.
Proof.
  intros Hab. unfold Py.slice.
  rewrite <- (take_drop (b - a) (drop a l)) at 2.
  rewrite drop_drop. do 3 f_equal. lia.
Qed.

(** Cutting a list at three increasing multiples of one width loses and
    repeats nothing, whatever the width. *)
Lemma chunks_concat {A} (l : list A) (c : nat) :
  Py.slice l 0 c ++ Py.slice l c (c * 2) ++ Py.slice l (c * 2) (c * 3)
    ++ drop (c * 3) l = l.
Proof. rewrite !slice_app_drop by lia. apply drop_0. Qed.

Lemma master_list_ids (n : nat) : id_num <$> master_list n = seq 1 n.
Proof.
  unfold master_list. rewrite <- list_fmap_compose.
  rewrite <- (list_fmap_id (seq 1 n)) at 2. by apply list_fmap_ext.
Qed.

Lemma groups_concat (n : nat) : concat (groups n) = master_list n.
Proof. unfold groups. simpl. rewrite app_nil_r. apply chunks_concat. Qed.

Lemma elem_of_concat_lookup {A} (ls : list (list A)) (k : nat) (X : list A)
    (x : A) :
  ls !! k = Some X → x ∈ X → x ∈ concat ls.
Proof.
  revert k. induction ls as [|l ls IH]; intros [|k]; simpl; try done.
  - intros [= ->] ?. apply elem_of_app. by left.
  - intros ? ?. apply elem_of_app. right. by eapply IH.
Qed.

(** Lists that sit at different positions of a duplicate-free concatenation
    share no element. *)
Lemma concat_NoDup_disjoint {A} (ls : list (list A)) (i j : nat)
    (X Y : list A) (x : A) :
  NoDup (concat ls) → i ≠ j → ls !! i = Some X → ls !! j = Some Y →
  x ∈ X → x ∈ Y → False.
Proof.
  revert i j. induction ls as [|l ls IH]; intros i j; [done|].
  simpl. rewrite NoDup_app. intros (_ & Hdisj & Hnd) Hij Hi Hj HX HY.
  destruct i as [|i], j as [|j]; simpl in *; simplify_eq; eauto.
  - eapply Hdisj; eauto using elem_of_concat_lookup.
  - eapply Hdisj; eauto using elem_of_concat_lookup.
Qed.

Lemma fmap_concat {A B} (f : A → B) (ls : list (list A)) :
  f <$> concat ls = concat (fmap (M:=list) f <$> ls).
Proof.
  induction ls as [|l ls IH]; [done|].
  simpl. rewrite fmap_app. by f_equal.
Qed.

End CohortBuilder.

(** C1.  For every volunteer count [N] the Cohort Builder yields exactly four
    cohorts [A], [B], [C], [D]; laid end to end they are the master list, whose
    id numbers are exactly 1..N, each once, so no volunteer is omitted and
    none sits in two cohorts; the first three cohorts are the successive
    chunks of width [ceil(N/4)], cut short where the roster ends, and the
    fourth is what remains after three chunks. *)
Theorem cohort_builder_partition (N : nat) :
  let ml := master_list N in
  let c := chunk N in
  ∃ A B C D : cohort,
    groups N = [A; B; C; D]
    ∧ A ++ B ++ C ++ D = ml
    ∧ id_num <$> (A ++ B ++ C ++ D) = seq 1 N
    ∧ NoDup (id_num <$> (A ++ B ++ C ++ D))
    ∧ (∀ k : nat, 1 ≤ k ≤ N ↔ k ∈ id_num <$> concat (groups N))
    ∧ (∀ (i j : nat) (X Y : cohort) (v w : volunteer),
          i ≠ j → groups N !! i = Some X → groups N !! j = Some Y →
          v ∈ X → w ∈ Y → id_num v ≠ id_num w)
    ∧ (N ≤ 4 * c ∧ 4 * c < N + 4)
    ∧ A = take c ml ∧ B = take c (drop c ml)
    ∧ C = take c (drop (2 * c) ml) ∧ D = drop (3 * c) ml
    ∧ length A = c `min` N ∧ length B = c `min` (N - c)
    ∧ length C = c `min` (N - 2 * c) ∧ length D = N - 3 * c.
Proof.
  intros ml c.
  assert (Hlen : length ml = N).
  { unfold ml, master_list. by rewrite length_fmap, length_seq. }
  assert (Hcat : concat (groups N) = ml) by apply groups_concat.
  assert (Hids : id_num <$> concat (groups N) = seq 1 N).
  { rewrite Hcat. apply master_list_ids. }
  eexists _, _, _, _. split; [reflexivity|].
  change (Py.slice (master_list N) 0 (chunk N)
          ++ Py.slice (master_list N) (chunk N) (chunk N * 2)
          ++ Py.slice (master_list N) (chunk N * 2) (chunk N * 3)
          ++ drop (chunk N * 3) (master_list N))
    with (Py.slice ml 0 c ++ Py.slice ml c (c * 2)
          ++ Py.slice ml (c * 2) (c * 3) ++ drop (c * 3) ml).
  rewrite chunks_concat.
  split; [done|]. split; [apply master_list_ids|].
  split; [unfold ml; rewrite master_list_ids; apply NoDup_seq|].
  split; [intros k; rewrite Hids, elem_of_seq; lia|].
  split.
  { intros i j X Y v w Hij Hi Hj Hv Hw Heq.
    assert (Hnd : NoDup (concat (fmap (M:=list) id_num <$> groups N))).
    { rewrite <- fmap_concat, Hids. apply NoDup_seq. }
    eapply (concat_NoDup_disjoint _ i j _ _ (id_num v) Hnd Hij).
    - rewrite list_lookup_fmap, Hi. reflexivity.
    - rewrite list_lookup_fmap, Hj. reflexivity.
    - by apply list_elem_of_fmap_2.
    - rewrite Heq. by apply list_elem_of_fmap_2. }
  split; [apply ceil_div_4_spec|].
  unfold Py.slice, ml, c in *. rewrite drop_0.
  repeat split; rewrite ?length_take, ?length_drop, ?Hlen;
    solve [lia | f_equal; lia | do 2 f_equal; lia].
Qed.

(** ** Rotation Mapper *)

Section RotationMapper.
Context {A : Type}.
Implicit Types (a b c d : A) (r : Z) (k : nat).

Lemma adjust_index_le (len : nat) r : Py.adjust_index len r ≤ len.
Proof. unfold Py.adjust_index. case_match; lia. Qed.

(** Inside [-4, 4] the normalised bound is [r mod 4], except that [4] itself
    stays [4]; outside, it is clamped to an end of the list. *)
Lemma adjust_index_4 r :
  Py.adjust_index 4 r =
    if decide (r < -4)%Z then 0
    else if decide (4 ≤ r)%Z then 4
    else Z.to_nat (r mod 4).
Proof.
  unfold Py.adjust_index.
  destruct (Z.ltb_spec r 0) as [Hneg|Hpos]; repeat case_decide; try lia.
  - assert (Hr : (r = -4 ∨ r = -3 ∨ r = -2 ∨ r = -1)%Z) by lia.
    destruct Hr as [->|[->|[->| ->]]]; reflexivity.
  - assert (Hr : (r = 0 ∨ r = 1 ∨ r = 2 ∨ r = 3)%Z) by lia.
    destruct Hr as [->|[->|[->| ->]]]; reflexivity.
Qed.

(** The rotated sequence is always one of the four left rotations. *)
Lemma rotated_groups_4 a b c d r :
  rotated_groups [a; b; c; d] r =
    match Py.adjust_index 4 r with
    | 1 => [b; c; d; a]
    | 2 => [c; d; a; b]
    | 3 => [d; a; b; c]
    | _ => [a; b; c; d]
    end.
Proof.
  unfold rotated_groups, Py.slice_from, Py.slice_to.
  change (length [a; b; c; d]) with 4.
  pose proof (adjust_index_le 4 r) as Hle.
  destruct (Py.adjust_index 4 r) as [|[|[|[|[|?]]]]]; try reflexivity; lia.
Qed.

Lemma cohort_map_4 a b c d :
  cohort_map [a; b; c; d] =
    Some (<["4" := d]> (<["3" := c]> (<["2" := b]> (<["1" := a]> ∅)))).
Proof. reflexivity. Qed.

Lemma cohort_map_4_lookup a b c d (m : gmap string A) :
  cohort_map [a; b; c; d] = Some m →
  m !! "1" = Some a ∧ m !! "2" = Some b ∧ m !! "3" = Some c
  ∧ m !! "4" = Some d.
Proof. rewrite cohort_map_4. intros [= <-]. by simplify_map_eq. Qed.

Lemma cohort_map_4_dom a b c d (m : gmap string A) :
  cohort_map [a; b; c; d] = Some m →
  dom m = ({["1"; "2"; "3"; "4"]} : gset string).
Proof.
  rewrite cohort_map_4. intros [= <-].
  rewrite !dom_insert_L, dom_empty_L. set_solver.
Qed.

Lemma effective_shift_lt r : effective_shift r < 4.
Proof.
  unfold effective_shift. case_decide; [|lia].
  pose proof (Z.mod_pos_bound r 4). lia.
Qed.

Lemma rotated_groups_shift a b c d r :
  rotated_groups [a; b; c; d] r =
    match effective_shift r with
    | 1 => [b; c; d; a]
    | 2 => [c; d; a; b]
    | 3 => [d; a; b; c]
    | _ => [a; b; c; d]
    end.
Proof.
  rewrite rotated_groups_4, adjust_index_4. unfold effective_shift.
  repeat case_decide; try lia; try reflexivity.
  by replace r with 4%Z by lia.
Qed.

Lemma rotation_generic a b c d r :
  ∃ m : gmap string A,
    cohort_map (rotated_groups [a; b; c; d] r) = Some m
    ∧ rotates_by [a; b; c; d] (effective_shift r) m
    ∧ dom m = ({["1"; "2"; "3"; "4"]} : gset string).
Proof.
  rewrite rotated_groups_shift.
  pose proof (effective_shift_lt r) as Hlt.
  destruct (effective_shift r) as [|[|[|[|?]]]]; try lia;
    (eexists; split; [apply cohort_map_4|]; split;
     [|by eapply cohort_map_4_dom, cohort_map_4]);
    intros [|[|[|[|?]]]] ?; try lia; by vm_compute.
Qed.

End RotationMapper.

(** C5 (amended).  For every volunteer count and every integer [rot_idx] the
    Rotation Mapper returns a map with exactly the keys '1'..'4' that sends
    key [i+1] to [original[(i + k) mod 4]] for one shift [k < 4], and
    [i ↦ (i + k) mod 4] is a bijection of the four positions.  The shift is
    [rot_idx mod 4] whenever [-4 <= rot_idx <= 4], which covers every index
    the caller passes; beyond that range the two slices are clamped and the
    shift is 0, not [rot_idx mod 4]. *)
Theorem rotation_mapper (N : nat) (r : Z) :
  ∃ (m : gmap string cohort) (k : nat),
    generate_schedule N r = Some m
    ∧ dom m = ({["1"; "2"; "3"; "4"]} : gset string)
    ∧ k < 4
    ∧ rotates_by (groups N) k m
    ∧ (∀ i j : nat, i < 4 → j < 4 → (i + k) mod 4 = (j + k) mod 4 → i = j)
    ∧ (∀ p : nat, p < 4 → ∃ i : nat, i < 4 ∧ (i + k) mod 4 = p)
    ∧ ((-4 ≤ r ≤ 4)%Z → k = Z.to_nat (r mod 4))
    ∧ ((r < -4 ∨ 4 < r)%Z → k = 0).
Proof.
  unfold generate_schedule, groups.
  destruct (rotation_generic
              (Py.slice (master_list N) 0 (chunk N))
              (Py.slice (master_list N) (chunk N) (chunk N * 2))
              (Py.slice (master_list N) (chunk N * 2) (chunk N * 3))
              (drop (chunk N * 3) (master_list N)) r) as (m & Hm & Hrot & Hdom).
  exists m, (effective_shift r).
  pose proof (effective_shift_lt r) as Hlt.
  split; [done|]. split; [done|]. split; [done|]. split; [done|].
  split; [|split; [|split]].
  - intros i j Hi Hj.
    destruct (effective_shift r) as [|[|[|[|?]]]]; try lia;
      destruct i as [|[|[|[|?]]]]; try lia;
      destruct j as [|[|[|[|?]]]]; try lia; by vm_compute.
  - intros p Hp.
    destruct (effective_shift r) as [|[|[|[|?]]]]; try lia;
      destruct p as [|[|[|[|?]]]]; try lia;
      first [ exists 0; split; [lia | vm_compute; reflexivity]
            | exists 1; split; [lia | vm_compute; reflexivity]
            | exists 2; split; [lia | vm_compute; reflexivity]
            | exists 3; split; [lia | vm_compute; reflexivity] ].
  - intros Hr. unfold effective_shift. by rewrite decide_True.
  - intros Hr. unfold effective_shift. rewrite decide_False; [done|lia].
Qed.

Lemma rotation_mapper_witness :
  ∃ (m : gmap string cohort) (k : nat),
    generate_schedule 8 (-1) = Some m ∧ k = 3 ∧ rotates_by (groups 8) k m.
Proof.
  destruct (rotation_mapper 8 (-1)) as (m & k & Hm & _ & _ & Hrot & _ & _ & Hk & _).
  exists m, k. split; [exact Hm|]. split; [apply Hk; lia|exact Hrot].
Defined.

(** C5 as stated fails for [rot_idx = 5]: the mapper does not reduce it to
    [5 mod 4 = 1]; it returns the unrotated map of [rot_idx = 0], whose key
    '1' holds Group A and not Group B. *)
Lemma rotation_mapper_not_modular :
  generate_schedule 8 5 = generate_schedule 8 0
  ∧ ¬ ∃ m : gmap string cohort,
        generate_schedule 8 5 = Some m
        ∧ rotates_by (groups 8) (Z.to_nat (5 mod 4)) m.
Proof.
  split; [reflexivity|].
  intros (m & Hm & Hrot).
  specialize (Hrot 0 ltac:(lia)).
  change (generate_schedule 8 5) with (cohort_map (groups 8)) in Hm.
  unfold groups in Hm. apply cohort_map_4_lookup in Hm as (H1 & _).
  change (slot_key 0) with "1" in Hrot. rewrite H1 in Hrot.
  vm_compute in Hrot. discriminate Hrot.
Qed.

(** ** Shift Allocator: the pool *)

Section Sorting.
Context {A : Type} (key : A → nat).

Lemma insert_by_key_Permutation (x : A) (l : list A) :
  Py.insert_by_key key x l ≡ₚ x :: l.
Proof.
  induction l as [|y l IH]; simpl; [done|].
  case_decide; [done|]. rewrite IH. apply Permutation_swap.
Qed.

Lemma sort_by_key_Permutation (l : list A) : Py.sort_by_key key l ≡ₚ l.
Proof.
  induction l as [|x l IH]; simpl; [done|].
  by rewrite insert_by_key_Permutation, IH.
Qed.

Lemma insert_by_key_sorted (x : A) (l : list A) :
  StronglySorted (λ u v, key u ≤ key v) l →
  StronglySorted (λ u v, key u ≤ key v) (Py.insert_by_key key x l).
Proof.
  induction 1 as [|y l Hl IH Hy]; simpl.
  - repeat constructor.
  - case_decide as Hxy.
    + constructor; [by constructor|].
      constructor; [done|].
      eapply Forall_impl; [exact Hy|]. simpl. lia.
    + constructor; [done|].
      rewrite insert_by_key_Permutation. constructor; [lia|done].
Qed.

Lemma sort_by_key_sorted (l : list A) :
  StronglySorted (λ u v, key u ≤ key v) (Py.sort_by_key key l).
Proof.
  induction l as [|x l IH]; simpl; [constructor|].
  by apply insert_by_key_sorted.
Qed.

(** Sorted by [≤] and free of repeated keys is sorted by [<]. *)
Lemma sorted_NoDup_strict (l : list A) :
  StronglySorted (λ u v, key u ≤ key v) l → NoDup (key <$> l) →
  StronglySorted lt (key <$> l).
Proof.
  induction 1 as [|y l Hl IH Hy]; simpl; [constructor|].
  rewrite NoDup_cons. intros [Hnotin Hnd].
  constructor; [by apply IH|].
  rewrite Forall_fmap. rewrite Forall_forall in Hy |- *.
  intros z Hz. simpl.
  assert (key y ≠ key z).
  { intros Heq. apply Hnotin. rewrite Heq. by apply list_elem_of_fmap_2. }
  specialize (Hy z Hz). lia.
Qed.

(** The sort leaves a list alone that is already in strict key order. *)
Lemma sort_by_key_strict (l : list A) :
  StronglySorted lt (key <$> l) → Py.sort_by_key key l = l.
Proof.
  induction l as [|x l IH]; simpl; [done|].
  rewrite StronglySorted_cons. intros [Hx Hl].
  rewrite IH by done. destruct l as [|y l]; simpl; [done|].
  apply Forall_cons in Hx as [Hxy _]. rewrite decide_True; [done|lia].
Qed.

End Sorting.

Section Pool.

Lemma NoDup_concat_lookup {B} (ls : list (list B)) (p : nat) (g : list B) :
  NoDup (concat ls) → ls !! p = Some g → NoDup g.
Proof.
  revert p. induction ls as [|l ls IH]; intros [|p]; simpl; try done.
  - rewrite NoDup_app. by intros (? & _ & _) [= ->].
  - rewrite NoDup_app. intros (_ & _ & ?) ?. by eapply IH.
Qed.

(** Picking lists at pairwise different positions out of a duplicate-free
    concatenation gives a duplicate-free concatenation again. *)
Lemma select_NoDup {B} (ls : list (list B)) (ps : list nat)
    (gs : list (list B)) :
  NoDup (concat ls) → NoDup ps →
  Forall2 (λ p g, ls !! p = Some g) ps gs → NoDup (concat gs).
Proof.
  intros Hls Hps Hsel. induction Hsel as [|p g ps gs Hp Hrest IH]; simpl.
  - constructor.
  - apply NoDup_cons in Hps as [Hnotin Hps].
    apply NoDup_app. split; [by eapply NoDup_concat_lookup|].
    split; [|by apply IH].
    intros x Hxg Hxrest.
    apply list_elem_of_In, in_concat in Hxrest as (g' & Hg' & Hxg').
    apply list_elem_of_In, list_elem_of_lookup in Hg' as [j Hj].
    destruct (Forall2_lookup_r _ _ _ _ _ Hrest Hj) as (p' & Hp' & Hlook).
    apply (concat_NoDup_disjoint ls p p' g g' x); try done.
    + intros ->. apply Hnotin. by eapply list_elem_of_lookup_2.
    + by apply list_elem_of_In.
Qed.

Lemma extend_pool_Forall2 (m : gmap string cohort) (keys : list string)
    (gs : list cohort) (pool : cohort) :
  Forall2 (λ key g, m !! key = Some g) keys gs →
  extend_pool m pool keys = Some (pool ++ concat gs).
Proof.
  intros Hsel. revert pool.
  induction Hsel as [|key g keys gs Hkey _ IH]; intros pool; simpl.
  - by rewrite app_nil_r.
  - rewrite Hkey. simpl. rewrite IH. by rewrite <- app_assoc.
Qed.

Lemma key_index_lt (key : string) : key_index key < 4.
Proof. unfold key_index. repeat case_decide; lia. Qed.

Lemma key_index_inj (k1 k2 : string) :
  k1 ∈ four_keys → k2 ∈ four_keys → key_index k1 = key_index k2 → k1 = k2.
Proof.
  unfold four_keys. rewrite !elem_of_cons, !elem_of_nil.
  intros [->|[->|[->|[->|[]]]]] [->|[->|[->|[->|[]]]]]; by vm_compute.
Qed.

Lemma cohort_map_key_index {B} (a b c d : B) (m : gmap string B)
    (key : string) :
  cohort_map [a; b; c; d] = Some m → key ∈ four_keys →
  m !! key = [a; b; c; d] !! key_index key.
Proof.
  intros (H1 & H2 & H3 & H4)%cohort_map_4_lookup.
  unfold four_keys. rewrite !elem_of_cons, !elem_of_nil.
  by intros [->|[->|[->|[->|[]]]]].
Qed.

Lemma rotated_concat_Permutation {B} (a b c d : list B) (r : Z) :
  concat (rotated_groups [a; b; c; d] r) ≡ₚ concat [a; b; c; d].
Proof.
  rewrite rotated_groups_shift.
  destruct (effective_shift r) as [|[|[|[|?]]]]; simpl;
    rewrite ?app_nil_r; try done.
  - by rewrite (Permutation_app_comm a), <- !app_assoc.
  - rewrite (app_assoc a b), (Permutation_app_comm (a ++ b)).
    by rewrite <- !app_assoc.
  - rewrite (Permutation_app_comm d). by rewrite <- !app_assoc.
Qed.

(** What [generate_schedule] returns: the map of some four cohorts that,
    laid end to end, are a rearrangement of the master list. *)
Lemma generate_schedule_rotated (N : nat) (r : Z) :
  ∃ (a b c d : cohort) (m : gmap string cohort),
    rotated_groups (groups N) r = [a; b; c; d]
    ∧ generate_schedule N r = Some m
    ∧ cohort_map [a; b; c; d] = Some m
    ∧ concat [a; b; c; d] ≡ₚ master_list N.
Proof.
  pose proof (rotated_concat_Permutation
                (Py.slice (master_list N) 0 (chunk N))
                (Py.slice (master_list N) (chunk N) (chunk N * 2))
                (Py.slice (master_list N) (chunk N * 2) (chunk N * 3))
                (drop (chunk N * 3) (master_list N)) r) as Hperm.
  change (concat (rotated_groups (groups N) r) ≡ₚ concat (groups N)) in Hperm.
  rewrite groups_concat in Hperm.
  unfold generate_schedule. revert Hperm. unfold groups.
  rewrite rotated_groups_shift.
  destruct (effective_shift r) as [|[|[|[|?]]]]; intros Hperm;
    eexists _, _, _, _, _; (split; [reflexivity|]);
    (split; [apply cohort_map_4|]); (split; [apply cohort_map_4|]);
    exact Hperm.
Qed.

Lemma select_by_keys {B} (a b c d : B) (m : gmap string B)
    (keys : list string) :
  cohort_map [a; b; c; d] = Some m → keys ⊆ four_keys →
  ∃ gs : list B,
    Forall2 (λ key g, m !! key = Some g) keys gs
    ∧ Forall2 (λ p g, [a; b; c; d] !! p = Some g) (key_index <$> keys) gs.
Proof.
  intros Hm. induction keys as [|key keys IH]; intros Hsub.
  - exists []. split; constructor.
  - apply list_subseteq_cons_iff in Hsub as [Hkey Hsub'].
    destruct (IH Hsub') as (gs & Hgs1 & Hgs2).
    pose proof (cohort_map_key_index a b c d m key Hm Hkey) as Hlook.
    destruct (lookup_lt_is_Some_2 [a; b; c; d] (key_index key)) as [g Hg].
    { simpl. apply key_index_lt. }
    exists (g :: gs). split; simpl; constructor; try done. by rewrite Hlook.
Qed.

(** The pool of any set of distinct slot keys. *)
Lemma shift_pool_spec (a b c d : cohort) (m : gmap string cohort)
    (keys : list string) :
  cohort_map [a; b; c; d] = Some m →
  NoDup (id_num <$> concat [a; b; c; d]) →
  NoDup keys → keys ⊆ four_keys →
  ∃ (gs : list cohort) (pool : cohort),
    Forall2 (λ key g, m !! key = Some g) keys gs
    ∧ shift_pool m keys = Some pool
    ∧ pool ≡ₚ concat gs
    ∧ StronglySorted lt (id_num <$> pool)
    ∧ length pool = sum_list (length <$> gs).
Proof.
  intros Hm Hnd Hkeys Hsub.
  destruct (select_by_keys a b c d m keys Hm Hsub) as (gs & Hgs1 & Hgs2).
  exists gs, (Py.sort_by_key id_num (concat gs)).
  assert (Hperm : Py.sort_by_key id_num (concat gs) ≡ₚ concat gs)
    by apply sort_by_key_Permutation.
  split; [done|]. split.
  { unfold shift_pool. by rewrite (extend_pool_Forall2 m keys gs []). }
  split; [done|]. split.
  - apply sorted_NoDup_strict; [apply sort_by_key_sorted|].
    rewrite Hperm, fmap_concat.
    apply (select_NoDup (fmap (M:=list) id_num <$> [a; b; c; d])
             (key_index <$> keys)).
    + by rewrite <- fmap_concat.
    + apply NoDup_fmap_2_strong; [|done].
      intros k1 k2 Hk1 Hk2. apply key_index_inj; by apply Hsub.
    + apply Forall2_fmap_r. eapply Forall2_impl; [exact Hgs2|].
      intros p g Hp. cbv beta. by rewrite list_lookup_fmap, Hp.
  - rewrite Hperm. apply length_concat.
Qed.

End Pool.

(** C3.  For every volunteer count and rotation argument, and for any set of
    distinct slot keys in any order, merging the cohorts of those keys and
    sorting gives a Shift Pool that holds exactly the volunteers of those
    cohorts, in strictly ascending [id_num] order, and whose size is the sum
    of the sizes of those cohorts; the key list of every time slot of the
    pattern is such a set. *)
Theorem shift_pool_sorted (N : nat) (r : Z) :
  ∃ m : gmap string cohort,
    generate_schedule N r = Some m
    ∧ (∀ keys : list string, NoDup keys → keys ⊆ four_keys →
         ∃ (gs : list cohort) (pool : cohort),
           Forall2 (λ key g, m !! key = Some g) keys gs
           ∧ shift_pool m keys = Some pool
           ∧ pool ≡ₚ concat gs
           ∧ StronglySorted lt (id_num <$> pool)
           ∧ length pool = sum_list (length <$> gs))
    ∧ Forall (λ entry, NoDup entry.1.2 ∧ entry.1.2 ⊆ four_keys)
        schedule_pattern.
Proof.
  destruct (generate_schedule_rotated N r)
    as (a & b & c & d & m & _ & Hgen & Hm & Hperm).
  exists m. split; [done|]. split.
  - intros keys Hnd Hsub. apply (shift_pool_spec a b c d); try done.
    rewrite Hperm, master_list_ids. apply NoDup_seq.
  - apply (bool_decide_unpack _). by vm_compute.
Qed.

Lemma shift_pool_sorted_witness :
  ∃ (m : gmap string cohort) (pool : cohort),
    generate_schedule 8 1 = Some m
    ∧ shift_pool m ["4"; "2"] = Some pool
    ∧ StronglySorted lt (id_num <$> pool).
Proof.
  destruct (shift_pool_sorted 8 1) as (m & Hm & Hpool & _).
  destruct (Hpool ["4"; "2"]) as (gs & pool & _ & Hp & _ & Hsorted & _).
  - apply (bool_decide_unpack _). by vm_compute.
  - apply (bool_decide_unpack _). by vm_compute.
  - by exists m, pool.
Defined.

(** ** Shift Allocator: counters and reserves *)

Section Distribute.
Implicit Types (pool : cohort) (req : nat) (ts : string)
  (asg : list Py.dict).

Lemma dict_get_set (d : Py.dict) (k v : string) :
  Py.dict_get (Py.dict_set d k v) k = Some v.
Proof.
  induction d as [|[k' v'] d IH]; simpl.
  - by rewrite decide_True.
  - case_decide as Hk; simpl; rewrite ?decide_True by done; [done|].
    by rewrite decide_False.
Qed.

(** The counter loop, started at counter [i0] with [current_idx = i0 * req],
    serves [n] counters: it ends with [current_idx = (i0 + n) * req], and it
    has written into the rows [i0 .. i0 + n - 1], and only there, the slice
    that starts at [i * req]. *)
Lemma distribute_spec pool req ts (n : nat) :
  ∀ (i0 : nat) asg, i0 + n ≤ length asg →
    ∃ asg',
      distribute pool req ts (seq i0 n) asg (i0 * req)
        = Some (asg', (i0 + n) * req)
      ∧ length asg' = length asg
      ∧ ∀ i : nat,
          asg' !! i =
            if decide (i0 ≤ i < i0 + n)
            then write_cell pool req ts i <$> asg !! i
            else asg !! i.
Proof.
  induction n as [|n IH]; intros i0 asg Hlen; simpl.
  - exists asg. rewrite Nat.add_0_r. split; [done|]. split; [done|].
    intros i. rewrite decide_False; [done|lia].
  - destruct (lookup_lt_is_Some_2 asg i0) as [row Hrow]; [lia|].
    unfold set_cell. rewrite Hrow. simpl.
    set (asg1 := <[i0 := _]> asg).
    destruct (IH (S i0) asg1) as (asg' & Hrun & Hlen' & Hrows).
    { unfold asg1. rewrite length_insert. lia. }
    exists asg'.
    replace (i0 * req + req) with (S i0 * req) by lia.
    replace ((i0 + S n) * req) with ((S i0 + n) * req) by lia.
    split; [exact Hrun|]. split.
    { rewrite Hlen'. unfold asg1. apply length_insert. }
    intros i. rewrite Hrows. unfold asg1.
    destruct (decide (i = i0)) as [->|Hne].
    + rewrite decide_False by lia. rewrite decide_True by lia.
      rewrite list_lookup_insert_eq by lia. by rewrite Hrow.
    + rewrite list_lookup_insert_ne by done.
      destruct (decide (S i0 ≤ i < S i0 + n)).
      * rewrite decide_True by lia. done.
      * rewrite decide_False by lia. done.
Qed.

(** The slices of the first [n] counters, laid end to end, are the first
    [n * req] volunteers of the pool. *)
Lemma slices_concat pool req (n : nat) :
  concat ((λ i, assigned_ppl pool (i * req) req) <$> seq 0 n)
    = take (n * req) pool.
Proof.
  induction n as [|n IH]; [done|].
  rewrite seq_S, fmap_app, concat_app, IH. simpl. rewrite app_nil_r.
  unfold assigned_ppl, Py.slice.
  replace (n * req + req - n * req) with req by lia.
  replace (req + n * req) with (n * req + req) by lia.
  by rewrite take_take_drop.
Qed.

Lemma counter_slices_lookup pool req (i : nat) :
  i < counters →
  counter_slices pool req !! i = Some (assigned_ppl pool (i * req) req).
Proof.
  intros Hi. unfold counter_slices.
  rewrite list_lookup_fmap, lookup_seq_lt by done. done.
Qed.

Lemma conservation pool req :
  concat (counter_slices pool req) ++ drop (counters * req) pool = pool.
Proof. unfold counter_slices. rewrite slices_concat. apply take_drop. Qed.

End Distribute.

Section SlotStep.
Implicit Types (m : gmap string cohort) (pool : cohort) (req : nat)
  (ts : string) (asg : list Py.dict) (log : list reserve_entry).

Lemma slot_step_spec m ts (keys : list string) req asg log pool :
  length asg = counters →
  shift_pool m keys = Some pool →
  ∃ asg',
    slot_step m (asg, log) (ts, keys, req)
      = Some (asg', catch_reserves pool (counters * req) ts log)
    ∧ length asg' = counters
    ∧ ∀ i : nat, i < counters →
        asg' !! i = write_cell pool req ts i <$> asg !! i.
Proof.
  intros Hlen Hpool.
  destruct (distribute_spec pool req ts counters 0 asg)
    as (asg' & Hrun & Hlen' & Hrows); [lia|].
  exists asg'. split; [|split].
  - unfold slot_step. rewrite Hpool. cbn [mbind option_bind].
    rewrite Nat.mul_0_l in Hrun. rewrite Hrun. done.
  - congruence.
  - intros i Hi. rewrite Hrows, decide_True by lia. done.
Qed.

Lemma catch_reserves_app pool (idx : nat) ts log :
  catch_reserves pool idx ts log = log ++ catch_reserves pool idx ts [].
Proof.
  unfold catch_reserves. destruct (drop idx pool); [|done].
  by rewrite app_nil_r.
Qed.

(** The whole loop over a pattern: every row is updated with its cells in
    pattern order, and the log grows by the reserve entries in pattern
    order. *)
Lemma run_pattern_spec m (pattern : list (string * list string * nat))
    (pools : list cohort) :
  pools_of m pattern pools →
  ∀ asg log, length asg = counters →
    ∃ asg',
      run_pattern m pattern (asg, log)
        = Some (asg', log ++ slot_reserves pattern pools)
      ∧ length asg' = counters
      ∧ ∀ i : nat, i < counters →
          asg' !! i
            = (λ row, Py.dict_update row (slot_cells pattern pools i))
                <$> asg !! i.
Proof.
  induction 1 as [|[[ts keys] req] pool pattern pools Hpool _ IH];
    intros asg log Hlen.
  - exists asg. simpl. unfold slot_reserves. simpl. rewrite app_nil_r.
    split; [done|]. split; [done|].
    intros i _. by destruct (asg !! i).
  - simpl in Hpool.
    destruct (slot_step_spec m ts keys req asg log pool Hlen Hpool)
      as (asg1 & Hstep & Hlen1 & Hrows1).
    destruct (IH asg1 (catch_reserves pool (counters * req) ts log) Hlen1)
      as (asg' & Hrun & Hlen' & Hrows').
    exists asg'. split; [|split; [done|]].
    + cbn [run_pattern]. rewrite Hstep. cbn [mbind option_bind].
      rewrite Hrun. f_equal. f_equal.
      rewrite (catch_reserves_app _ _ _ log). unfold slot_reserves.
      simpl. by rewrite <- app_assoc.
    + intros i Hi. rewrite Hrows', Hrows1 by done.
      by destruct (asg !! i).
Qed.

End SlotStep.

(** C2.  In the step of any time slot, run on assignments with one row per
    counter and with any pool that the merge produced, counter [i] (for
    [i < 30]) gets, under the slot's label, the rendering of the contiguous
    slice [pool[i*req : i*req + req]]; the reserves are logged from
    [pool[30*req :]]; the thirty slices followed by the reserves are the pool
    itself, so their lengths add up to the pool size. *)
Theorem counters_receive_slices (cohort_data : gmap string cohort)
    (time_slot : string) (keys : list string) (req : nat)
    (assignments : list Py.dict) (reserves_log : list reserve_entry)
    (pool : cohort) :
  length assignments = counters →
  shift_pool cohort_data keys = Some pool →
  ∃ assignments' : list Py.dict,
    slot_step cohort_data (assignments, reserves_log) (time_slot, keys, req)
      = Some (assignments',
              catch_reserves pool (counters * req) time_slot reserves_log)
    ∧ (∀ (i : nat) (row : Py.dict),
          i < counters → assignments !! i = Some row →
          assignments' !! i
            = Some (Py.dict_set row time_slot
                      (names_str (Py.slice pool (i * req) (i * req + req))))
          ∧ ∃ row' : Py.dict,
              assignments' !! i = Some row'
              ∧ Py.dict_get row' time_slot
                  = Some (names_str
                            (Py.slice pool (i * req) (i * req + req))))
    ∧ (∀ i : nat, i < counters →
          counter_slices pool req !! i
            = Some (Py.slice pool (i * req) (i * req + req)))
    ∧ concat (counter_slices pool req) ++ drop (counters * req) pool = pool
    ∧ sum_list (length <$> counter_slices pool req)
        + length (drop (counters * req) pool) = length pool.
Proof.
  intros Hlen Hpool.
  destruct (slot_step_spec cohort_data time_slot keys req assignments
              reserves_log pool Hlen Hpool) as (asg' & Hstep & _ & Hrows).
  exists asg'. split; [exact Hstep|].
  split.
  { intros i row Hi Hrow.
    assert (Hcell : asg' !! i
              = Some (Py.dict_set row time_slot
                        (names_str (Py.slice pool (i * req) (i * req + req))))).
    { rewrite Hrows by done. by rewrite Hrow. }
    split; [exact Hcell|]. eexists. split; [exact Hcell|].
    apply dict_get_set. }
  split; [apply counter_slices_lookup|].
  split; [apply conservation|].
  rewrite <- length_concat, <- length_app. by rewrite conservation.
Qed.

Lemma counters_receive_slices_witness :
  ∃ assignments' : list Py.dict,
    slot_step {["1" := master_list 62]} (replicate counters [], [])
      ("16:00 - 18:00 (Off)", ["1"], 2)
    = Some (assignments',
            [{| res_time := "16:00 - 18:00 (Off)";
                res_names := "V-61, V-62" |}]).
Proof.
  destruct (counters_receive_slices {["1" := master_list 62]}
              "16:00 - 18:00 (Off)" ["1"] 2 (replicate counters []) []
              (master_list 62)) as (asg' & Hstep & _).
  - reflexivity.
  - vm_compute. reflexivity.
  - exists asg'. exact Hstep.
Defined.

(** ** Schedule Assembler *)

Section Assembler.

Lemma dict_set_fresh (d : Py.dict) (k v : string) :
  k ∉ d.*1 → Py.dict_set d k v = d ++ [(k, v)].
Proof.
  induction d as [|[k' v'] d IH]; simpl; [done|].
  rewrite not_elem_of_cons. intros [Hne Hnotin].
  rewrite decide_False by congruence. by rewrite IH.
Qed.

Lemma dict_update_fresh (d other : Py.dict) :
  NoDup (d.*1 ++ other.*1) → Py.dict_update d other = d ++ other.
Proof.
  unfold Py.dict_update. revert d.
  induction other as [|[k v] other IH]; intros d; simpl.
  - intros _. by rewrite app_nil_r.
  - intros Hnd. rewrite dict_set_fresh.
    + rewrite IH; [by rewrite <- app_assoc|].
      by rewrite fmap_app, <- app_assoc.
    + apply NoDup_app in Hnd as (_ & Hdisj & _).
      intros Hin. apply (Hdisj k Hin). by left.
Qed.

Lemma slot_cells_keys (pattern : list (string * list string * nat))
    (pools : list cohort) (i : nat) :
  length pools = length pattern →
  (slot_cells pattern pools i).*1 = pattern.*1.*1.
Proof.
  unfold slot_cells. revert pools.
  induction pattern as [|e pattern IH]; intros [|pool pools]; simpl;
    try done.
  intros [= Hlen]. by rewrite IH.
Qed.

Lemma pattern_pools_of {a b c d : cohort} {m : gmap string cohort} :
  cohort_map [a; b; c; d] = Some m →
  pools_of m schedule_pattern (pattern_pools a b c d).
Proof.
  intros (H1 & H2 & H3 & H4)%cohort_map_4_lookup.
  unfold pools_of, schedule_pattern, pattern_pools.
  repeat (constructor;
          [unfold shift_pool; simpl; rewrite ?H1, ?H2, ?H3, ?H4; by simpl|]).
  constructor.
Qed.

(** The loops of the script compute the table and the log that the pools
    determine. *)
Lemma assemble_spec (m : gmap string cohort) (pools : list cohort) :
  pools_of m schedule_pattern pools →
  ∃ asg' : list Py.dict,
    run_pattern m schedule_pattern (replicate counters [], [])
      = Some (asg', slot_reserves schedule_pattern pools)
    ∧ final_table_data asg' = Some (expected_table pools).
Proof.
  intros Hpools.
  destruct (run_pattern_spec m schedule_pattern pools Hpools
              (replicate counters []) [])
    as (asg' & Hrun & Hlen & Hrows); [apply length_replicate|].
  exists asg'. split; [exact Hrun|].
  assert (Hkeys : ∀ i : nat,
            (slot_cells schedule_pattern pools i).*1 = schedule_pattern.*1.*1).
  { intros i. apply slot_cells_keys. symmetry. by eapply Forall2_length. }
  unfold final_table_data, expected_table. apply mapM_Some.
  apply Forall2_fmap_r, Forall_Forall2_diag, Forall_forall.
  intros i Hi%elem_of_seq.
  rewrite Hrows, lookup_replicate_2 by lia.
  cbn [fmap option_fmap option_map mbind option_bind]. f_equal.
  unfold final_row. rewrite (dict_update_fresh []); cbn [app].
  - rewrite dict_update_fresh; [done|].
    rewrite Hkeys. apply (bool_decide_unpack _). by vm_compute.
  - change (NoDup (slot_cells schedule_pattern pools i).*1).
    rewrite Hkeys. apply (bool_decide_unpack _). by vm_compute.
Qed.

(** The script as a whole: it never fails, and its table and log are the
    ones determined by the pools of the rotated cohorts. *)
Lemma build_schedule_spec (N : nat) (r : Z) :
  ∃ (a b c d : cohort) (m : gmap string cohort),
    generate_schedule N r = Some m
    ∧ cohort_map [a; b; c; d] = Some m
    ∧ concat [a; b; c; d] ≡ₚ master_list N
    ∧ build_schedule N r
        = Some (expected_table (pattern_pools a b c d),
                slot_reserves schedule_pattern (pattern_pools a b c d)).
Proof.
  destruct (generate_schedule_rotated N r)
    as (a & b & c & d & m & _ & Hgen & Hm & Hperm).
  exists a, b, c, d, m. split; [done|]. split; [done|]. split; [done|].
  destruct (assemble_spec m _ (pattern_pools_of Hm)) as (asg' & Hrun & Htab).
  unfold build_schedule. rewrite Hgen. cbn [mbind option_bind].
  rewrite Hrun. cbn [mbind option_bind]. by rewrite Htab.
Qed.

Lemma master_list_is_volunteer (N : nat) : Forall is_volunteer (master_list N).
Proof. unfold master_list. rewrite Forall_fmap. by apply Forall_true. Qed.

(** Every pool of the day is strictly sorted by [id_num] and holds only
    volunteers of the master list. *)
Lemma pattern_pools_facts (N : nat) (a b c d : cohort) :
  concat [a; b; c; d] ≡ₚ master_list N →
  Forall (λ pool, StronglySorted lt (id_num <$> pool)
                  ∧ Forall is_volunteer pool)
    (pattern_pools a b c d).
Proof.
  intros Hperm.
  assert (Hnd : NoDup (id_num <$> concat [a; b; c; d])).
  { rewrite Hperm, master_list_ids. apply NoDup_seq. }
  assert (Hvol : Forall is_volunteer (concat [a; b; c; d])).
  { rewrite Hperm. apply master_list_is_volunteer. }
  simpl in Hnd, Hvol. rewrite app_nil_r in Hnd, Hvol.
  rewrite !fmap_app, !NoDup_app in Hnd.
  rewrite !Forall_app in Hvol.
  destruct Hnd as (Ha & Habcd & Hb & Hbcd & Hc & Hcd & Hd).
  destruct Hvol as (Hva & Hvb & Hvc & Hvd).
  assert (Hone : ∀ l : cohort,
            NoDup (id_num <$> l) → Forall is_volunteer l →
            StronglySorted lt (id_num <$> Py.sort_by_key id_num l)
            ∧ Forall is_volunteer (Py.sort_by_key id_num l)).
  { intros l Hl Hv. split.
    - apply sorted_NoDup_strict; [apply sort_by_key_sorted|].
      by rewrite sort_by_key_Permutation.
    - by rewrite sort_by_key_Permutation. }
  assert (Hab : NoDup (id_num <$> a ++ b)).
  { rewrite fmap_app. apply NoDup_app. split; [done|]. split; [|done].
    intros x Hx Hxb. apply (Habcd x Hx). rewrite !elem_of_app. by left. }
  assert (Hcd' : NoDup (id_num <$> c ++ d)).
  { rewrite fmap_app. by apply NoDup_app. }
  unfold pattern_pools.
  repeat (constructor; [apply Hone; [done|rewrite ?Forall_app; done]|]).
  constructor.
Qed.

End Assembler.

(** ** Rendering: markers and reserve entries *)

Section Rendering.

Lemma join_names_head (v : volunteer) (l : cohort) :
  is_volunteer v → ∃ s : string, join_names (v :: l) = "V" +:+ s.
Proof.
  intros ->. unfold join_names, Py.join. rewrite fmap_cons.
  cbn [String.concat mk_volunteer id_str].
  destruct (id_str <$> l); eexists; reflexivity.
Qed.

(** The marker is the rendering of the empty slice and of nothing else. *)
Lemma names_str_marker (ppl : cohort) :
  Forall is_volunteer ppl → names_str ppl = EMPTY ↔ ppl = [].
Proof.
  intros Hvol. split; [|by intros ->].
  destruct ppl as [|v l]; [done|].
  apply Forall_cons in Hvol as [Hv _].
  destruct (join_names_head v l Hv) as [s Hs].
  unfold names_str. rewrite Hs. by vm_compute.
Qed.

Lemma dict_get_elem_of (d : Py.dict) (k v : string) :
  NoDup d.*1 → (k, v) ∈ d → Py.dict_get d k = Some v.
Proof.
  induction d as [|[k' v'] d IH]; simpl; [by intros _ ?%elem_of_nil|].
  rewrite NoDup_cons, elem_of_cons. intros [Hnotin Hnd] [[= -> ->]|Hin].
  - by rewrite decide_True.
  - rewrite decide_False; [by apply IH|].
    intros ->. apply Hnotin. by apply (list_elem_of_fmap_2 fst) in Hin.
Qed.

Lemma expected_table_cell (pools : list cohort) (i j : nat)
    (entry : string * list string * nat) (pool : cohort) :
  length pools = length schedule_pattern →
  i < counters →
  schedule_pattern !! j = Some entry → pools !! j = Some pool →
  table_cell (expected_table pools) i entry.1.1
    = Some (names_str (assigned_ppl pool (i * entry.2) entry.2)).
Proof.
  intros Hlen Hi Hentry Hpool. unfold table_cell, expected_table.
  rewrite list_lookup_fmap, lookup_seq_lt by done.
  cbn [fmap option_fmap option_map mbind option_bind].
  apply dict_get_elem_of.
  - change (NoDup ("Counter" :: (slot_cells schedule_pattern pools i).*1)).
    rewrite slot_cells_keys by done.
    apply (bool_decide_unpack _). by vm_compute.
  - right. apply list_elem_of_lookup. exists j. unfold slot_cells.
    rewrite lookup_zip_with, Hentry. simpl. by rewrite Hpool.
Qed.

Lemma elem_of_catch_reserves (pool : cohort) (idx : nat) (ts : string)
    (item : reserve_entry) :
  item ∈ catch_reserves pool idx ts []
  ↔ drop idx pool ≠ [] ∧ item = reserve_of ts (drop idx pool).
Proof.
  unfold catch_reserves, reserve_of. destruct (drop idx pool) as [|v l].
  - rewrite elem_of_nil. split; [done|by intros [? _]].
  - simpl. rewrite list_elem_of_singleton.
    split; [by intros ->|by intros [_ ->]].
Qed.

Lemma elem_of_slot_reserves (pattern : list (string * list string * nat))
    (pools : list cohort) (item : reserve_entry) :
  item ∈ slot_reserves pattern pools
  ↔ ∃ (j : nat) (entry : string * list string * nat) (pool : cohort),
      pattern !! j = Some entry ∧ pools !! j = Some pool
      ∧ drop (counters * entry.2) pool ≠ []
      ∧ item = reserve_of entry.1.1 (drop (counters * entry.2) pool).
Proof.
  unfold slot_reserves. rewrite list_elem_of_In, in_concat. split.
  - intros (l & Hl & Hitem).
    apply list_elem_of_In, list_elem_of_lookup in Hl as [j Hj].
    apply lookup_zip_with_Some in Hj as (entry & pool & -> & He & Hp).
    apply list_elem_of_In, elem_of_catch_reserves in Hitem as [Hne ->].
    by exists j, entry, pool.
  - intros (j & entry & pool & He & Hp & Hne & ->).
    exists (catch_reserves pool (counters * entry.2) entry.1.1 []).
    split.
    + apply list_elem_of_In, list_elem_of_lookup. exists j.
      rewrite lookup_zip_with, He. simpl. by rewrite Hp.
    + by apply list_elem_of_In, elem_of_catch_reserves.
Qed.

Lemma schedule_pattern_label_inj (j j' : nat)
    (entry entry' : string * list string * nat) :
  schedule_pattern !! j = Some entry → schedule_pattern !! j' = Some entry' →
  entry.1.1 = entry'.1.1 → j = j'.
Proof.
  intros Hj Hj' Heq.
  assert (Hnd : NoDup schedule_pattern.*1.*1).
  { apply (bool_decide_unpack _). by vm_compute. }
  eapply NoDup_lookup; [exact Hnd| |].
  - rewrite !list_lookup_fmap, Hj. reflexivity.
  - rewrite !list_lookup_fmap, Hj'. simpl. by rewrite Heq.
Qed.

End Rendering.

(** C7.  For every volunteer count and rotation argument the script builds its
    table and log without raising.  Every counter has a cell under every time
    slot, holding the rendering of its slice; that rendering is the marker
    exactly when the slice is empty, so no real assignment can be taken for
    it.  The reserves log holds one entry for each time slot with leftovers
    and nothing else: a slot without leftovers has no entry. *)
Theorem empty_is_marked_not_raised (N : nat) (r : Z) :
  ∃ (m : gmap string cohort) (pools : list cohort) (table : list Py.dict)
    (log : list reserve_entry),
    generate_schedule N r = Some m
    ∧ pools_of m schedule_pattern pools
    ∧ build_schedule N r = Some (table, log)
    ∧ length table = counters
    ∧ (∀ (i j : nat) (entry : string * list string * nat) (pool : cohort),
          i < counters →
          schedule_pattern !! j = Some entry → pools !! j = Some pool →
          let slice := Py.slice pool (i * entry.2) (i * entry.2 + entry.2) in
          table_cell table i entry.1.1 = Some (names_str slice)
          ∧ (names_str slice = EMPTY ↔ slice = []))
    ∧ (∀ item : reserve_entry,
          item ∈ log
          ↔ ∃ (j : nat) (entry : string * list string * nat) (pool : cohort),
              schedule_pattern !! j = Some entry ∧ pools !! j = Some pool
              ∧ drop (counters * entry.2) pool ≠ []
              ∧ item = reserve_of entry.1.1 (drop (counters * entry.2) pool))
    ∧ (∀ (j : nat) (entry : string * list string * nat) (pool : cohort),
          schedule_pattern !! j = Some entry → pools !! j = Some pool →
          drop (counters * entry.2) pool = [] →
          ∀ item : reserve_entry, item ∈ log → res_time item ≠ entry.1.1).
Proof.
  destruct (build_schedule_spec N r)
    as (a & b & c & d & m & Hgen & Hm & Hperm & Hbuild).
  pose proof (pattern_pools_of Hm) as Hpools.
  pose proof (pattern_pools_facts N a b c d Hperm) as Hfacts.
  set (pools := pattern_pools a b c d) in *.
  exists m, pools, (expected_table pools),
    (slot_reserves schedule_pattern pools).
  split; [done|]. split; [done|]. split; [done|].
  split; [unfold expected_table; by rewrite length_fmap, length_seq|].
  split; [|split].
  - intros i j entry pool Hi Hentry Hpool slice. split.
    + by apply (expected_table_cell pools i j entry pool).
    + apply names_str_marker.
      rewrite Forall_lookup in Hfacts. destruct (Hfacts j pool Hpool) as [_ Hv].
      unfold slice, Py.slice. by apply Forall_take, Forall_drop.
  - apply elem_of_slot_reserves.
  - intros j entry pool Hentry Hpool Hnil item Hitem Htime.
    destruct (proj1 (elem_of_slot_reserves _ _ _) Hitem)
      as (j' & entry' & pool' & Hentry' & Hpool' & Hne & ->).
    simpl in Htime.
    assert (j' = j) as -> by by eapply schedule_pattern_label_inj.
    congruence.
Qed.

Lemma empty_is_marked_not_raised_witness :
  ∃ (table : list Py.dict) (log : list reserve_entry),
    build_schedule 241 0 = Some (table, log)
    ∧ table_cell table 0 "16:00 - 18:00 (Off)" = Some "V-1, V-2"
    ∧ reserve_of "16:00 - 18:00 (Off)" [mk_volunteer 61] ∈ log.
Proof.
  destruct (empty_is_marked_not_raised 241 0)
    as (m & pools & table & log & Hgen & Hpools & Hbuild & _ & Hcell & Hlog & _).
  exists table, log. split; [exact Hbuild|].
  change (generate_schedule 241 0) with (cohort_map (groups 241)) in Hgen.
  unfold groups in Hgen. apply cohort_map_4_lookup in Hgen as (H1 & _).
  assert (Hpool : pools !! 4 = Some (Py.slice (master_list 241) 0 61)).
  { apply Forall2_lookup_l
      with (i := 4) (x := ("16:00 - 18:00 (Off)", ["1"], 2))
      in Hpools as (pool & Hp & Hsp); [|reflexivity].
    rewrite Hp, <- Hsp. cbn [fst snd].
    unfold shift_pool, extend_pool. rewrite H1. by vm_compute. }
  split.
  - destruct (Hcell 0 4 ("16:00 - 18:00 (Off)", ["1"], 2)
                (Py.slice (master_list 241) 0 61)
                ltac:(unfold counters; lia) eq_refl Hpool) as [Hc _].
    exact Hc.
  - apply Hlog.
    exists 4, ("16:00 - 18:00 (Off)", ["1"], 2),
      (Py.slice (master_list 241) 0 61).
    split; [reflexivity|]. split; [exact Hpool|].
    split; [by vm_compute|reflexivity].
Defined.

(** ** One slot, one place *)

Section OnePlace.

Lemma strict_NoDup (l : list nat) : StronglySorted lt l → NoDup l.
Proof.
  induction 1 as [|x l _ IH Hx]; constructor; [|done].
  intros Hin. rewrite Forall_forall in Hx. specialize (Hx x Hin). lia.
Qed.

(** In a pool without repeated ids, the slices of different counters, and
    any slice and the leftovers, share no id. *)
Lemma slices_disjoint (pool : cohort) (req : nat) :
  NoDup (id_num <$> pool) →
  NoDup (id_num <$> concat (counter_slices pool req)
                    ++ drop (counters * req) pool)
  ∧ (∀ (i i' : nat) (X Y : cohort) (v w : volunteer),
        i ≠ i' →
        counter_slices pool req !! i = Some X →
        counter_slices pool req !! i' = Some Y →
        v ∈ X → w ∈ Y → id_num v ≠ id_num w)
  ∧ (∀ (i : nat) (X : cohort) (v w : volunteer),
        counter_slices pool req !! i = Some X →
        v ∈ X → w ∈ drop (counters * req) pool → id_num v ≠ id_num w).
Proof.
  intros Hnd.
  set (slices := counter_slices pool req).
  set (leftovers := drop (counters * req) pool).
  assert (Hcat : concat (slices ++ [leftovers]) = pool).
  { rewrite concat_app. change (concat [leftovers]) with (leftovers ++ []).
    rewrite app_nil_r. apply conservation. }
  assert (Hnd' : NoDup (concat (fmap (M:=list) id_num
                                  <$> (slices ++ [leftovers])))).
  { by rewrite <- fmap_concat, Hcat. }
  assert (Hlen : length slices = counters).
  { unfold slices, counter_slices. by rewrite length_fmap, length_seq. }
  split; [|split].
  - unfold slices, leftovers. by rewrite conservation.
  - intros i i' X Y v w Hne HX HY Hv Hw Heq.
    apply (concat_NoDup_disjoint _ i i' (id_num <$> X) (id_num <$> Y)
             (id_num v) Hnd' Hne).
    + by rewrite list_lookup_fmap, lookup_app_l, HX
        by eauto using lookup_lt_Some.
    + by rewrite list_lookup_fmap, lookup_app_l, HY
        by eauto using lookup_lt_Some.
    + by apply list_elem_of_fmap_2.
    + rewrite Heq. by apply list_elem_of_fmap_2.
  - intros i X v w HX Hv Hw Heq.
    pose proof (lookup_lt_Some _ _ _ HX) as Hi.
    apply (concat_NoDup_disjoint _ i (length slices) (id_num <$> X)
             (id_num <$> leftovers) (id_num v) Hnd'); [lia| | | |].
    + by rewrite list_lookup_fmap, lookup_app_l, HX.
    + rewrite list_lookup_fmap, lookup_app_r by lia.
      by rewrite Nat.sub_diag.
    + by apply list_elem_of_fmap_2.
    + rewrite Heq. by apply list_elem_of_fmap_2.
Qed.

End OnePlace.

(** C9.  In the assembled schedule every time slot places a volunteer at most
    once: the cells of the thirty counters under that slot render thirty
    slices of the slot's pool, the log entry of the slot renders its
    leftovers, and no id number occurs in two of those slices, nor in a slice
    and in the leftovers, nor twice in one of them. *)
Theorem one_place_per_slot (N : nat) (r : Z) :
  ∃ (m : gmap string cohort) (pools : list cohort) (table : list Py.dict)
    (log : list reserve_entry),
    generate_schedule N r = Some m
    ∧ pools_of m schedule_pattern pools
    ∧ build_schedule N r = Some (table, log)
    ∧ ∀ (j : nat) (entry : string * list string * nat) (pool : cohort),
        schedule_pattern !! j = Some entry → pools !! j = Some pool →
        let slices := counter_slices pool entry.2 in
        let leftovers := drop (counters * entry.2) pool in
        (∀ i : nat, i < counters →
           ∃ X : cohort,
             slices !! i = Some X
             ∧ table_cell table i entry.1.1 = Some (names_str X))
        ∧ (leftovers ≠ [] → reserve_of entry.1.1 leftovers ∈ log)
        ∧ NoDup (id_num <$> concat slices ++ leftovers)
        ∧ (∀ (i i' : nat) (X Y : cohort) (v w : volunteer),
              i ≠ i' → slices !! i = Some X → slices !! i' = Some Y →
              v ∈ X → w ∈ Y → id_num v ≠ id_num w)
        ∧ (∀ (i : nat) (X : cohort) (v w : volunteer),
              slices !! i = Some X → v ∈ X → w ∈ leftovers →
              id_num v ≠ id_num w).
Proof.
  destruct (build_schedule_spec N r)
    as (a & b & c & d & m & Hgen & Hm & Hperm & Hbuild).
  pose proof (pattern_pools_of Hm) as Hpools.
  pose proof (pattern_pools_facts N a b c d Hperm) as Hfacts.
  set (pools := pattern_pools a b c d) in *.
  exists m, pools, (expected_table pools),
    (slot_reserves schedule_pattern pools).
  split; [done|]. split; [done|]. split; [done|].
  intros j entry pool Hentry Hpool slices leftovers.
  rewrite Forall_lookup in Hfacts.
  destruct (Hfacts j pool Hpool) as [Hsorted _].
  apply strict_NoDup in Hsorted.
  destruct (slices_disjoint pool entry.2 Hsorted) as (Hnd & Hcc & Hcl).
  split; [|split; [|done]].
  - intros i Hi. eexists. split; [by apply counter_slices_lookup|].
    by apply (expected_table_cell pools i j entry pool).
  - intros Hne. apply elem_of_slot_reserves. by exists j, entry, pool.
Qed.

Lemma one_place_per_slot_witness :
  ∃ (table : list Py.dict) (log : list reserve_entry),
    build_schedule 9 2 = Some (table, log)
    ∧ table_cell table 0 "08:00 - 10:00 (Peak)" = Some "V-7, V-8, V-9".
Proof.
  destruct (one_place_per_slot 9 2)
    as (m & pools & table & log & Hgen & Hpools & Hbuild & Hslot).
  exists table, log. split; [exact Hbuild|].
  assert (Hpool : pools !! 0 = Some (drop 6 (master_list 9))).
  { apply Forall2_lookup_l
      with (i := 0) (x := ("08:00 - 10:00 (Peak)", ["1"; "2"], 4))
      in Hpools as (pool & Hp & Hsp); [|reflexivity].
    rewrite Hp, <- Hsp.
    change (generate_schedule 9 2)
      with (cohort_map
              [Py.slice (master_list 9) 6 9; drop 9 (master_list 9);
               Py.slice (master_list 9) 0 3; Py.slice (master_list 9) 3 6])
      in Hgen.
    apply cohort_map_4_lookup in Hgen as (H1 & H2 & _).
    cbn [fst snd]. unfold shift_pool, extend_pool.
    rewrite H1. cbn [mbind option_bind]. rewrite H2. by vm_compute. }
  destruct (Hslot 0 ("08:00 - 10:00 (Peak)", ["1"; "2"], 4)
              (drop 6 (master_list 9)) eq_refl Hpool) as (Hcells & _).
  destruct (Hcells 0 ltac:(unfold counters; lia)) as (X & HX & Hcell).
  vm_compute in HX. injection HX as <-. exact Hcell.
Defined.

(** ** Duty count *)

Section DutyCount.




End DutyCount.



(** ** Volunteer lookup *)

Section Strings.

Lemma str_app_nil_r (s : string) : s +:+ "" = s.
Proof.
  induction s as [|ch s IH]; [done|].
  change (String ch (s +:+ "") = String ch s). by rewrite IH.
Qed.

Lemma str_app_assoc (s1 s2 s3 : string) :
  (s1 +:+ s2) +:+ s3 = s1 +:+ (s2 +:+ s3).
Proof.
  induction s1 as [|ch s1 IH]; [done|].
  change (String ch ((s1 +:+ s2) +:+ s3) = String ch (s1 +:+ (s2 +:+ s3))).
  by rewrite IH.
Qed.

Lemma split_go_0 (sep cur : string) (ch : ascii) (s : string) :
  Py.split_go sep 0 cur (String ch s)
    = if String.prefix sep (String ch s)
      then cur :: Py.split_go sep (String.length sep - 1) "" s
      else Py.split_go sep 0 (cur +:+ String ch "") s.
Proof. reflexivity. Qed.

Lemma prefix_sep_no_comma (ch : ascii) (s : string) :
  ch ≠ ","%char → String.prefix ", " (String ch s) = false.
Proof.
  intros Hch.
  change (String.prefix ", " (String ch s))
    with (match ascii_dec "," ch with
          | left _ => String.prefix " " s
          | right _ => false
          end).
  by destruct (ascii_dec "," ch) as [<-|_].
Qed.

(** Reading a piece without comma only lengthens the current token. *)
Lemma split_go_no_comma (s cur rest : string) :
  no_comma s →
  Py.split_go ", " 0 cur (s +:+ rest) = Py.split_go ", " 0 (cur +:+ s) rest.
Proof.
  revert cur. induction s as [|ch s IH]; intros cur.
  - intros _. by rewrite str_app_nil_r.
  - intros [Hch Hs].
    change (String ch s +:+ rest) with (String ch (s +:+ rest)).
    rewrite split_go_0, prefix_sep_no_comma by done.
    rewrite IH by done. by rewrite str_app_assoc.
Qed.

(** Reading the separator closes the current token. *)
Lemma split_go_sep (cur rest : string) :
  Py.split_go ", " 0 cur (", " +:+ rest)
    = cur :: Py.split_go ", " 0 "" rest.
Proof. by destruct rest. Qed.

Lemma split_go_join (cur x : string) (l : list string) :
  Forall no_comma (x :: l) →
  Py.split_go ", " 0 cur (Py.join ", " (x :: l)) = (cur +:+ x) :: l.
Proof.
  revert cur x. induction l as [|y l IH]; intros cur x Hall.
  - apply Forall_cons in Hall as [Hx _]. simpl.
    rewrite <- (str_app_nil_r x) at 1.
    by rewrite split_go_no_comma.
  - apply Forall_cons in Hall as [Hx Hl].
    change (Py.join ", " (x :: y :: l))
      with (x +:+ ", " +:+ Py.join ", " (y :: l)).
    rewrite split_go_no_comma by done.
    rewrite split_go_sep, IH by done. done.
Qed.

(** Splitting what [join] made gives the joined pieces back. *)
Lemma split_join (l : list string) :
  l ≠ [] → Forall no_comma l → Py.split (Py.join ", " l) ", " = l.
Proof.
  destruct l as [|x l]; [done|]. intros _ Hall.
  unfold Py.split. by rewrite split_go_join.
Qed.

Lemma str_of_uint_no_comma (d : Decimal.uint) :
  no_comma (NilEmpty.string_of_uint d).
Proof. induction d; simpl; try done; by split. Qed.

Lemma str_of_nat_inj (a b : nat) : Py.str_of_nat a = Py.str_of_nat b → a = b.
Proof.
  unfold Py.str_of_nat. intros Heq.
  apply (f_equal NilEmpty.uint_of_string) in Heq.
  rewrite !NilEmpty.usu in Heq. injection Heq as Heq.
  apply (f_equal Nat.of_uint) in Heq. by rewrite !Unsigned.of_to in Heq.
Qed.

Lemma target_of_inj (a b : nat) : target_of a = target_of b → a = b.
Proof. unfold target_of. simpl. intros [= Heq]. by apply str_of_nat_inj. Qed.

Lemma is_volunteer_id_str (v : volunteer) :
  is_volunteer v → id_str v = target_of (id_num v).
Proof.
  destruct v as [s n]. unfold is_volunteer, mk_volunteer. simpl.
  by intros [= ->].
Qed.

Lemma id_str_no_comma (v : volunteer) : is_volunteer v → no_comma (id_str v).
Proof.
  intros ->%is_volunteer_id_str. split; [done|]. split; [done|].
  apply str_of_uint_no_comma.
Qed.

(** A display id is a token of the joined names exactly when its number is
    the number of one of the volunteers joined. *)
Lemma token_of_join_names (ppl : cohort) (k : nat) :
  ppl ≠ [] → Forall is_volunteer ppl →
  target_of k ∈ Py.split (join_names ppl) ", " ↔ k ∈ id_num <$> ppl.
Proof.
  intros Hne Hvol. unfold join_names. rewrite split_join.
  - rewrite !list_elem_of_fmap. rewrite Forall_forall in Hvol. split.
    + intros (v & Hv & Hin). exists v. split; [|done].
      rewrite (is_volunteer_id_str v (Hvol v Hin)) in Hv.
      by apply target_of_inj in Hv.
    + intros (v & -> & Hin). exists v. split; [|done].
      symmetry. by apply is_volunteer_id_str, Hvol.
  - by destruct ppl.
  - rewrite Forall_fmap. eapply Forall_impl; [exact Hvol|].
    apply id_str_no_comma.
Qed.

(** The same for a counter cell, which may hold the marker. *)
Lemma token_of_names_str (ppl : cohort) (k : nat) :
  Forall is_volunteer ppl →
  target_of k ∈ Py.split (names_str ppl) ", " ↔ k ∈ id_num <$> ppl.
Proof.
  intros Hvol. destruct ppl as [|v l].
  - simpl. rewrite elem_of_nil. split; [|done].
    change (Py.split EMPTY ", ") with [EMPTY].
    rewrite list_elem_of_singleton. by vm_compute.
  - by apply token_of_join_names.
Qed.

End Strings.

Section Search.

Lemma elem_of_search_table (df : DataFrame) (target : string) (hit : duty) :
  hit ∈ search_table df target
  ↔ ∃ (row : Py.dict) (col : string),
      row ∈ df_rows df ∧ col ∈ df_columns df ∧ col ≠ "Counter"
      ∧ target ∈ Py.split (str_cell row col) ", "
      ∧ hit = {| Time := col; Location := str_cell row "Counter";
                 Role := "Counter Duty" |}.
Proof.
  unfold search_table. rewrite list_elem_of_bind. split.
  - intros (row & Hhit & Hrow).
    apply list_elem_of_bind in Hhit as (col & Hhit & Hcol).
    case_decide as Hc; [by apply elem_of_nil in Hhit|].
    unfold matches in Hhit. case_bool_decide as Hm;
      [|by apply elem_of_nil in Hhit].
    apply list_elem_of_singleton in Hhit as ->. by exists row, col.
  - intros (row & col & Hrow & Hcol & Hc & Hm & ->).
    exists row. split; [|done]. apply list_elem_of_bind.
    exists col. split; [|done].
    rewrite decide_False by done. unfold matches.
    rewrite bool_decide_eq_true_2 by done. by apply list_elem_of_singleton.
Qed.

Lemma elem_of_search_reserves (reserves_log : list reserve_entry)
    (target : string) (hit : duty) :
  hit ∈ search_reserves reserves_log target
  ↔ ∃ item : reserve_entry,
      item ∈ reserves_log
      ∧ target ∈ Py.split (res_names item) ", "
      ∧ hit = {| Time := res_time item; Location := "Reserve Area";
                 Role := "Standby" |}.
Proof.
  unfold search_reserves. rewrite list_elem_of_bind. split.
  - intros (item & Hhit & Hitem).
    unfold matches in Hhit. case_bool_decide as Hm;
      [|by apply elem_of_nil in Hhit].
    apply list_elem_of_singleton in Hhit as ->. by exists item.
  - intros (item & Hitem & Hm & ->). exists item. split; [|done].
    unfold matches. rewrite bool_decide_eq_true_2 by done.
    by apply list_elem_of_singleton.
Qed.

Lemma first_seen_known (acc ks : list string) :
  ks ⊆ acc → foldl first_seen acc ks = acc.
Proof.
  induction ks as [|k ks IH]; [done|].
  intros [Hk Hks]%list_subseteq_cons_iff. simpl.
  unfold first_seen at 2. rewrite decide_True by done. by apply IH.
Qed.

Lemma first_seen_fresh (acc ks : list string) :
  NoDup (acc ++ ks) → foldl first_seen acc ks = acc ++ ks.
Proof.
  revert acc. induction ks as [|k ks IH]; intros acc Hnd; simpl.
  - by rewrite app_nil_r.
  - unfold first_seen at 2. rewrite decide_False.
    + rewrite IH; rewrite <- app_assoc; done.
    + apply NoDup_app in Hnd as (_ & Hdisj & _).
      intros Hin. apply (Hdisj k Hin). by left.
Qed.

(** Records that all have the same keys give a frame with those columns. *)
Lemma pd_columns (records : list Py.dict) (cols : list string) :
  records ≠ [] → NoDup cols →
  Forall (λ row, Py.dict_keys row = cols) records →
  df_columns (pd_DataFrame records) = cols.
Proof.
  intros Hne Hnd Hall. unfold pd_DataFrame. simpl.
  destruct records as [|row records]; [done|].
  apply Forall_cons in Hall as [Hrow Hrest].
  rewrite bind_cons, foldl_app, Hrow, (first_seen_fresh []) by done.
  apply first_seen_known. intros k Hk.
  apply list_elem_of_bind in Hk as (row' & Hk & Hrow').
  rewrite Forall_forall in Hrest. by rewrite (Hrest row' Hrow') in Hk.
Qed.

Lemma expected_table_rows (pools : list cohort) (row : Py.dict) :
  row ∈ expected_table pools
  ↔ ∃ i : nat,
      i < counters
      ∧ row = ("Counter", "Counter " +:+ Py.str_of_nat (i + 1))
                :: slot_cells schedule_pattern pools i.
Proof.
  unfold expected_table. rewrite list_elem_of_fmap.
  split; intros (i & H1 & H2); exists i.
  - apply elem_of_seq in H2. split; [lia|done].
  - split; [done|]. apply elem_of_seq. lia.
Qed.

Lemma expected_columns (pools : list cohort) :
  length pools = length schedule_pattern →
  df_columns (pd_DataFrame (expected_table pools))
    = "Counter" :: schedule_pattern.*1.*1.
Proof.
  intros Hlen. apply pd_columns.
  - unfold expected_table, counters. done.
  - apply (bool_decide_unpack _). by vm_compute.
  - apply Forall_forall. intros row (i & _ & ->)%expected_table_rows.
    unfold Py.dict_keys. rewrite fmap_cons. by rewrite slot_cells_keys.
Qed.

Lemma expected_row_cell (pools : list cohort) (i j : nat)
    (entry : string * list string * nat) (pool : cohort) :
  length pools = length schedule_pattern → i < counters →
  schedule_pattern !! j = Some entry → pools !! j = Some pool →
  str_cell (("Counter", "Counter " +:+ Py.str_of_nat (i + 1))
              :: slot_cells schedule_pattern pools i) entry.1.1
    = names_str (assigned_ppl pool (i * entry.2) entry.2).
Proof.
  intros Hlen Hi He Hp.
  pose proof (expected_table_cell pools i j entry pool Hlen Hi He Hp) as Hc.
  unfold table_cell, expected_table in Hc.
  rewrite list_lookup_fmap, lookup_seq_lt in Hc by done.
  cbn [fmap option_fmap option_map mbind option_bind] in Hc.
  change (0 + i) with i in Hc. unfold str_cell. by rewrite Hc.
Qed.

Lemma or_iff (A B C D : Prop) : (A ↔ B) → (C ↔ D) → (A ∨ C ↔ B ∨ D).
Proof. tauto. Qed.

(** What a search for volunteer number [k] finds in the schedule built from
    [pools]: one record per counter slice that holds number [k], and one per
    slot whose leftovers hold it. *)
Lemma found_in_schedule (pools : list cohort) (k : nat) (hit : duty) :
  length pools = length schedule_pattern →
  Forall (Forall is_volunteer) pools →
  hit ∈ found (pd_DataFrame (expected_table pools))
          (slot_reserves schedule_pattern pools) (target_of k)
  ↔ (∃ (i j : nat) (entry : string * list string * nat) (pool : cohort),
        i < counters
        ∧ schedule_pattern !! j = Some entry ∧ pools !! j = Some pool
        ∧ k ∈ id_num <$> Py.slice pool (i * entry.2) (i * entry.2 + entry.2)
        ∧ hit = {| Time := entry.1.1;
                   Location := "Counter " +:+ Py.str_of_nat (i + 1);
                   Role := "Counter Duty" |})
    ∨ (∃ (j : nat) (entry : string * list string * nat) (pool : cohort),
          schedule_pattern !! j = Some entry ∧ pools !! j = Some pool
          ∧ k ∈ id_num <$> drop (counters * entry.2) pool
          ∧ hit = {| Time := entry.1.1; Location := "Reserve Area";
                     Role := "Standby" |}).
Proof.
  intros Hlen Hvol. rewrite Forall_lookup in Hvol.
  unfold found.
  rewrite elem_of_app, elem_of_search_table, elem_of_search_reserves.
  change (df_rows (pd_DataFrame (expected_table pools)))
    with (expected_table pools).
  rewrite expected_columns by done.
  apply or_iff.
  - split.
    + intros (row & col & Hrow & Hcol & Hc & Hm & ->).
      apply expected_table_rows in Hrow as (i & Hi & ->).
      apply elem_of_cons in Hcol as [->|Hcol]; [done|].
      apply list_elem_of_lookup in Hcol as [j Hj].
      rewrite !list_lookup_fmap in Hj.
      destruct (schedule_pattern !! j) as [entry|] eqn:He; [|done].
      injection Hj as <-.
      destruct (lookup_lt_is_Some_2 pools j) as [pool Hp].
      { rewrite Hlen. by eapply lookup_lt_Some. }
      exists i, j, entry, pool.
      rewrite (expected_row_cell pools i j entry pool) in Hm by done.
      apply token_of_names_str in Hm;
        [|by apply Forall_take, Forall_drop, (Hvol j)].
      repeat (split; [done|]). f_equal.
    + intros (i & j & entry & pool & Hi & He & Hp & Hk & ->).
      exists (("Counter", "Counter " +:+ Py.str_of_nat (i + 1))
                :: slot_cells schedule_pattern pools i), entry.1.1.
      split; [apply expected_table_rows; by exists i|].
      split.
      { right. apply list_elem_of_lookup. exists j.
        by rewrite !list_lookup_fmap, He. }
      split.
      { intros Heq.
        assert (Hnd : NoDup ("Counter" :: schedule_pattern.*1.*1)).
        { apply (bool_decide_unpack _). by vm_compute. }
        apply NoDup_cons in Hnd as [Hnotin _]. apply Hnotin.
        rewrite <- Heq. apply list_elem_of_lookup. exists j.
        by rewrite !list_lookup_fmap, He. }
      split; [|f_equal].
      rewrite (expected_row_cell pools i j entry pool) by done.
      apply token_of_names_str;
        [by apply Forall_take, Forall_drop, (Hvol j)|done].
  - split.
    + intros (item & Hitem & Hm & ->).
      apply elem_of_slot_reserves in Hitem
        as (j & entry & pool & He & Hp & Hne & ->).
      exists j, entry, pool. simpl in Hm.
      apply token_of_join_names in Hm;
        [|done|by apply Forall_drop, (Hvol j)].
      done.
    + intros (j & entry & pool & He & Hp & Hk & ->).
      assert (Hne : drop (counters * entry.2) pool ≠ []).
      { intros Hnil. rewrite Hnil in Hk. by apply elem_of_nil in Hk. }
      exists (reserve_of entry.1.1 (drop (counters * entry.2) pool)).
      split; [apply elem_of_slot_reserves; by exists j, entry, pool|].
      split; [|done]. simpl.
      apply token_of_join_names; [done|by apply Forall_drop, (Hvol j)|done].
Qed.

End Search.

(** C6.  The lookup matches whole tokens.  For any frame, log and target, the
    records found are exactly one per table cell (outside the "Counter"
    column) and one per reserve entry whose text, split on ", ", has a piece
    equal to the target.  In the schedule built for any volunteer count and
    rotation argument, a search for volunteer number [k] therefore finds
    exactly the counter slices and the leftovers that hold number [k]: a
    cell is a hit exactly when [k] is the number of one of the volunteers
    rendered in it.  In particular "V-1" matches no cell made of "V-10" or
    "V-100". *)
Theorem lookup_matches_exact_tokens (N : nat) (r : Z) (k : nat) :
  (∀ (df : DataFrame) (reserves_log : list reserve_entry) (target : string)
     (hit : duty),
      hit ∈ found df reserves_log target
      ↔ (∃ (row : Py.dict) (col : string),
            row ∈ df_rows df ∧ col ∈ df_columns df ∧ col ≠ "Counter"
            ∧ target ∈ Py.split (str_cell row col) ", "
            ∧ hit = {| Time := col; Location := str_cell row "Counter";
                       Role := "Counter Duty" |})
        ∨ (∃ item : reserve_entry,
              item ∈ reserves_log
              ∧ target ∈ Py.split (res_names item) ", "
              ∧ hit = {| Time := res_time item; Location := "Reserve Area";
                         Role := "Standby" |}))
  ∧ (∃ (m : gmap string cohort) (pools : list cohort) (table : list Py.dict)
       (log : list reserve_entry),
        generate_schedule N r = Some m
        ∧ pools_of m schedule_pattern pools
        ∧ build_schedule N r = Some (table, log)
        ∧ ∀ hit : duty,
            hit ∈ found (pd_DataFrame table) log (target_of k)
            ↔ (∃ (i j : nat) (entry : string * list string * nat)
                 (pool : cohort),
                  i < counters
                  ∧ schedule_pattern !! j = Some entry
                  ∧ pools !! j = Some pool
                  ∧ k ∈ id_num
                        <$> Py.slice pool (i * entry.2)
                              (i * entry.2 + entry.2)
                  ∧ hit = {| Time := entry.1.1;
                             Location := "Counter " +:+ Py.str_of_nat (i + 1);
                             Role := "Counter Duty" |})
              ∨ (∃ (j : nat) (entry : string * list string * nat)
                   (pool : cohort),
                    schedule_pattern !! j = Some entry
                    ∧ pools !! j = Some pool
                    ∧ k ∈ id_num <$> drop (counters * entry.2) pool
                    ∧ hit = {| Time := entry.1.1; Location := "Reserve Area";
                               Role := "Standby" |}))
  ∧ (∀ (ppl : cohort) (n : nat),
        Forall is_volunteer ppl →
        matches (target_of n) (names_str ppl) = true ↔ n ∈ id_num <$> ppl)
  ∧ target_of 1 = "V-1"
  ∧ matches "V-1" "V-10" = false
  ∧ matches "V-1" "V-100" = false
  ∧ matches "V-1" "V-10, V-100" = false
  ∧ matches "V-1" "V-1, V-10" = true.
Proof.
  split; [|split; [|split]].
  - intros df reserves_log target hit. unfold found.
    by rewrite elem_of_app, elem_of_search_table, elem_of_search_reserves.
  - destruct (build_schedule_spec N r)
      as (a & b & c & d & m & Hgen & Hm & Hperm & Hbuild).
    exists m, (pattern_pools a b c d),
      (expected_table (pattern_pools a b c d)),
      (slot_reserves schedule_pattern (pattern_pools a b c d)).
    split; [done|]. split; [by apply pattern_pools_of|]. split; [done|].
    intros hit. apply found_in_schedule; [done|].
    eapply Forall_impl; [by apply (pattern_pools_facts N)|].
    by intros pool [_ Hv].
  - intros ppl n Hvol. unfold matches.
    rewrite bool_decide_eq_true. by apply token_of_names_str.
  - repeat split; by vm_compute.
Qed.

Lemma lookup_matches_exact_tokens_witness :
  matches (target_of 1) (names_str [mk_volunteer 10; mk_volunteer 1]) = true
  ∧ matches (target_of 1) (names_str [mk_volunteer 10; mk_volunteer 100])
    = false.
Proof.
  destruct (lookup_matches_exact_tokens 250 1 1) as (_ & _ & Htok & _).
  split.
  - apply Htok.
    + repeat constructor.
    + apply (bool_decide_unpack _). by vm_compute.
  - apply not_true_is_false. intros Hm. apply Htok in Hm.
    + revert Hm. apply (bool_decide_unpack _). by vm_compute.
    + repeat constructor.
Defined.

(** ** The static pattern *)

(** C8.  The pattern has exactly 12 entries.  Entry [i] runs from
    [(8 + 2i) mod 24] o'clock to [(10 + 2i) mod 24] o'clock, so every entry
    lasts two hours, each begins where the one before ends and the last ends
    where the first begins; every hour of the day lies in exactly one entry.
    The day is shared between the two regimes: 4 entries marked Peak, all at
    4 per counter, and 8 marked Off, all at 2 per counter.  The off-peak
    entries list one slot key each, in the order '1','2','3','4','1','2','3',
    '4'. *)
Theorem schedule_pattern_shape :
  length schedule_pattern = 12
  ∧ (λ entry, slot_start entry.1.1) <$> schedule_pattern
    = (λ i, Some ((8 + 2 * i) mod 24, 0)) <$> seq 0 12
  ∧ (λ entry, slot_end entry.1.1) <$> schedule_pattern
    = (λ i, Some ((10 + 2 * i) mod 24, 0)) <$> seq 0 12
  ∧ Forall
      (λ h, length (filter (λ entry, covers_hour entry.1.1 h = true)
                      schedule_pattern) = 1)
      (seq 0 24)
  ∧ (λ entry, (regime entry.1.1, entry.2)) <$> schedule_pattern
    = replicate 4 ("(Peak)", 4) ++ replicate 8 ("(Off)", 2)
  ∧ length (filter (λ entry, regime entry.1.1 = "(Peak)" ∧ entry.2 = 4)
              schedule_pattern) = 4
  ∧ length (filter (λ entry, regime entry.1.1 = "(Off)" ∧ entry.2 = 2)
              schedule_pattern) = 8
  ∧ (λ entry, entry.1.2) <$> filter (λ entry, entry.2 = 2) schedule_pattern
    = [["1"]; ["2"]; ["3"]; ["4"]; ["1"]; ["2"]; ["3"]; ["4"]]
  ∧ (λ entry, entry.1.2) <$> filter (λ entry, entry.2 = 4) schedule_pattern
    = [["1"; "2"]; ["3"; "4"]; ["1"; "2"]; ["3"; "4"]].
Proof.
  split; [reflexivity|]. split; [by vm_compute|]. split; [by vm_compute|].
  split; [apply (bool_decide_unpack _); by vm_compute|].
  repeat split; by vm_compute.
Qed.

(** ** The rotation index *)

Section Rotation.

Lemma sum_list_snoc (l : list nat) (x : nat) :
  sum_list (l ++ [x]) = sum_list l + x.
Proof. induction l as [|y l IH]; simpl; lia. Qed.

Lemma days_before_month_S (y m : nat) :
  1 ≤ m → days_before_month y (S m) = days_before_month y m + days_in_month y m.
Proof.
  intros Hm. unfold days_before_month.
  replace (S m - 1) with (S (m - 1)) by lia.
  rewrite seq_S, fmap_app. change (days_in_month y <$> [1 + (m - 1)])
    with [days_in_month y (1 + (m - 1))].
  rewrite sum_list_snoc. by replace (1 + (m - 1)) with m by lia.
Qed.

Lemma tm_yday_next_day (d : date) :
  valid_date d → year (next_day d) = year d →
  tm_yday (next_day d) = S (tm_yday d).
Proof.
  intros (Hy & Hm & Hd) Hsame. unfold next_day in *.
  repeat case_decide; unfold tm_yday; simpl in *.
  - lia.
  - rewrite days_before_month_S by lia. lia.
  - lia.
Qed.

(** Inside one calendar year the index does advance by one each day. *)
Lemma rotation_index_next_day (d : date) :
  valid_date d → year (next_day d) = year d →
  rotation_index (next_day d) = (rotation_index d + 1) mod 4.
Proof.
  intros Hvalid Hsame. unfold rotation_index.
  rewrite tm_yday_next_day by done.
  replace (S (tm_yday d)) with (tm_yday d + 1) by lia.
  by rewrite Nat.Div0.add_mod_idemp_l.
Qed.

End Rotation.

(** C4 at the turn of the year.  The day count restarts at 1 on 1 January, and
    neither 365 nor 366 is a multiple of 4: 30 December 2023 has index 0 and
    the day four days later, 3 January 2024, has index 3; 31 December 2023
    and the next day, 1 January 2024, both have index 1, so the starting
    group does not shift on that day. *)
Theorem rotation_index_year_wrap :
  valid_date (Date 2023 12 30)
  ∧ add_days 4 (Date 2023 12 30) = Date 2024 1 3
  ∧ rotation_index (Date 2023 12 30) = 0
  ∧ rotation_index (add_days 4 (Date 2023 12 30)) = 3
  ∧ valid_date (Date 2023 12 31)
  ∧ next_day (Date 2023 12 31) = Date 2024 1 1
  ∧ rotation_index (Date 2023 12 31) = 1
  ∧ rotation_index (next_day (Date 2023 12 31)) = 1.
Proof.
  repeat split; try (by vm_compute); vm_compute; lia.
Qed.
